(** * pythainlp.tokenize: the tokenizer dispatch layer

    A shallow embedding of [pythainlp/tokenize/__init__.py] and the
    properties its specification states about it.

    Python strings are sequences of Unicode code points, Python values that
    reach a [text], [custom_dict] or [dict_source] parameter are a small
    tagged union, a [marisa_trie.Trie] is the finite set of its keys, and
    the functions run in a small monad that records raised exceptions and
    the observable trace (lines written to stderr, calls of the dictionary
    builder). *)

From Stdlib Require Import ZArith NArith String Ascii List Lia.
From stdpp Require Import base gmap sets list strings.

Local Open Scope N_scope.
Local Open Scope list_scope.

(** ** Python strings *)

(** A [str] is a list of code points. *)
Abbreviation pystr := (list N).

(** [str "abc"] is the Python literal ["abc"] (ASCII literals only). *)
Definition str (s : string) : pystr :=
  map N_of_ascii (list_ascii_of_string s).

Definition SPACE : N := 32.
Definition TAB : N := 9.
Definition NEWLINE : N := 10.

(** [a == b] on two [str] values. *)
Fixpoint str_eqb (a b : pystr) : bool :=
  match a, b with
  | [], [] => true
  | x :: a', y :: b' => N.eqb x y && str_eqb a' b'
  | _, _ => false
  end.

(** ["".join(tokens)] *)
Definition join (tokens : list pystr) : pystr := concat tokens.

(** [token.lstrip(" ")] *)
Fixpoint lstrip_space (s : pystr) : pystr :=
  match s with
  | c :: s' => if N.eqb c SPACE then lstrip_space s' else s
  | [] => []
  end.

(** [token.rstrip(" ")] *)
Definition rstrip_space (s : pystr) : pystr := rev (lstrip_space (rev s)).

(** [token.strip(" ")] *)
Definition strip_space (s : pystr) : pystr := rstrip_space (lstrip_space s).

(** Truth value of a [str]: non-empty. *)
Definition str_truthy (s : pystr) : bool :=
  match s with [] => false | _ :: _ => true end.

(** The whitespace code points of [str.split()] and [str.isspace()]. *)
Definition py_isspace (c : N) : bool :=
  ((9 <=? c) && (c <=? 13)) || ((28 <=? c) && (c <=? 32))
  || (c =? 133) || (c =? 160) || (c =? 5760)
  || ((8192 <=? c) && (c <=? 8202))
  || (c =? 8232) || (c =? 8233) || (c =? 8239) || (c =? 8287) || (c =? 12288).

(** [text.split()]: the maximal runs of non-whitespace characters.
    [cur] is the run being read, in reverse. *)
Fixpoint split_whitespace_go (cur : pystr) (s : pystr) : list pystr :=
  match s with
  | [] => match cur with [] => [] | _ => [rev cur] end
  | c :: s' =>
      if py_isspace c
      then match cur with
           | [] => split_whitespace_go [] s'
           | _ => rev cur :: split_whitespace_go [] s'
           end
      else split_whitespace_go (c :: cur) s'
  end.

Definition split_whitespace (s : pystr) : list pystr := split_whitespace_go [] s.

(** [re.split(r" +", text, maxsplit)].  [budget] is the number of splits
    still allowed ([None]: no limit), [in_run] tells that the scan is inside
    a run of spaces that has already produced a split, [cur] is the piece
    being read, in reverse.  When the budget is used up the rest of the
    string is the last piece, spaces included. *)
Fixpoint re_split_spaces_go (budget : option nat) (in_run : bool)
    (cur : pystr) (s : pystr) : list pystr :=
  match s with
  | [] => [rev cur]
  | c :: s' =>
      if N.eqb c SPACE then
        if in_run then re_split_spaces_go budget true cur s'
        else match budget with
             | None => rev cur :: re_split_spaces_go None true [] s'
             | Some (S k) => rev cur :: re_split_spaces_go (Some k) true [] s'
             | Some O => [rev cur ++ s]
             end
      else re_split_spaces_go budget false (c :: cur) s'
  end.

(** [maxsplit = 0] means no limit. *)
Definition re_split_spaces (maxsplit : nat) (s : pystr) : list pystr :=
  re_split_spaces_go (match maxsplit with O => None | S _ => Some maxsplit end)
    false [] s.

(** The value of the flag constant [re.U] ([re.UNICODE]). *)
Definition re_U : nat := 32.

(** Line boundaries of [str.splitlines()]. *)
Definition py_islinebreak (c : N) : bool :=
  ((10 <=? c) && (c <=? 13)) || ((28 <=? c) && (c <=? 30))
  || (c =? 133) || (c =? 8232) || (c =? 8233).

(** [text.splitlines()]: a carriage return followed by a line feed is one
    boundary, and a final line without a boundary is kept when non-empty. *)
Fixpoint splitlines_go (cur : pystr) (s : pystr) : list pystr :=
  match s with
  | [] => match cur with [] => [] | _ => [rev cur] end
  | c :: s' =>
      if py_islinebreak c then
        match s' with
        | c' :: s'' =>
            if N.eqb c 13 && N.eqb c' 10
            then rev cur :: splitlines_go [] s''
            else rev cur :: splitlines_go [] s'
        | [] => [rev cur]
        end
      else splitlines_go (c :: cur) s'
  end.

Definition splitlines (s : pystr) : list pystr := splitlines_go [] s.

(** ** Dictionary tries *)

(** A [marisa_trie.Trie] is the finite set of its keys. *)
Abbreviation Trie := (gset (list N)).

(** [Trie(vocab)]: duplicates collapse, order is irrelevant. *)
Definition Trie_new (vocab : list pystr) : Trie := list_to_set vocab.

(** [list(trie)] *)
Definition Trie_keys (t : Trie) : list pystr := elements t.

(** [len(trie)] *)
Definition Trie_len (t : Trie) : nat := size t.

(** ** Python values *)

(** The values that reach the [text] and [dict_source] parameters: the
    documented ones (a [str], a trie, a list of [str]) and representatives
    of everything else: [None], a boolean, an integer, and a list of
    integers, which is an iterable whose elements are not strings. *)
Inductive pyval : Type :=
  | PyNone
  | PyBool (b : bool)
  | PyInt (z : Z)
  | PyStr (s : pystr)
  | PyStrs (l : list pystr)
  | PyTrie (t : Trie)
  | PyInts (l : list Z).

(** [bool(v)], the test behind [if v] and [not v]. *)
Definition truthy (v : pyval) : bool :=
  match v with
  | PyNone => false
  | PyBool b => b
  | PyInt z => negb (Z.eqb z 0)
  | PyStr s => str_truthy s
  | PyStrs l => match l with [] => false | _ :: _ => true end
  | PyTrie t => negb (Nat.eqb (Trie_len t) 0)
  | PyInts l => match l with [] => false | _ :: _ => true end
  end.

Definition isinstance_str (v : pyval) : bool :=
  match v with PyStr _ => true | _ => false end.

Definition isinstance_Trie (v : pyval) : bool :=
  match v with PyTrie _ => true | _ => false end.

(** [isinstance(v, Iterable)]: a [str] and a trie are iterable too, and
    the test does not look at the elements. *)
Definition isinstance_Iterable (v : pyval) : bool :=
  match v with
  | PyStr _ | PyStrs _ | PyTrie _ | PyInts _ => true
  | _ => false
  end.

(** [type(v).__name__] *)
Definition type_name (v : pyval) : pystr :=
  match v with
  | PyNone => str "NoneType"
  | PyBool _ => str "bool"
  | PyInt _ => str "int"
  | PyStr _ => str "str"
  | PyStrs _ => str "list"
  | PyTrie _ => str "Trie"
  | PyInts _ => str "list"
  end.

(** The characters of a [str] value (empty for any other value; only used
    behind an [isinstance] test). *)
Definition str_of_val (v : pyval) : pystr :=
  match v with PyStr s => s | _ => [] end.

(** The trie behind a trie value (only used behind an [isinstance] test). *)
Definition trie_of_val (v : pyval) : Trie :=
  match v with PyTrie t => t | _ => ∅ end.

(** The [str] elements produced by iterating over a value. *)
Definition iterate (v : pyval) : list pystr :=
  match v with
  | PyStrs l => l
  | PyTrie t => Trie_keys t
  | PyStr s => map (fun c => [c]) s
  | _ => []
  end.

(** ** Exceptions, trace and the monad of the module's functions *)

Inductive exn : Type :=
  | TypeError (msg : pystr)
  | OSError (path : pystr)
  | ImportError (module : pystr)
  | RuntimeError (msg : pystr)
  | TrieKeyError (key : pyval).  (* raised by [marisa_trie] on a key that is
                                    not a [str] *)

(** Outcome of a call: a returned value or a raised exception. *)
Inductive result (A : Type) : Type :=
  | Return (a : A)
  | Raise (e : exn).
Arguments Return {A} a.
Arguments Raise {A} e.

(** [Trie(source)] on an iterable: the keys are the elements, and the
    constructor of [marisa_trie] fails, with an error of its own, on the
    first element that is not a [str]. *)
Definition Trie_of (source : pyval) : result Trie :=
  match source with
  | PyInts (z :: _) => Raise (TrieKeyError (PyInt z))
  | _ => Return (Trie_new (iterate source))
  end.

(** What a call lets the outside observe besides its outcome. *)
Inductive event : Type :=
  | EvStderr (line : pystr)      (* [print(line, file=sys.stderr)] *)
  | EvDictTrie (src : pyval).    (* one call of [dict_trie(src)] *)

Record M (A : Type) : Type := MkM { trace : list event; outcome : result A }.
Arguments MkM {A} trace outcome.
Arguments trace {A} m.
Arguments outcome {A} m.

Definition M_ret {A} (a : A) : M A := MkM [] (Return a).

Definition M_bind {A B} (f : A -> M B) (m : M A) : M B :=
  match outcome m with
  | Return a => MkM (trace m ++ trace (f a)) (outcome (f a))
  | Raise e => MkM (trace m) (Raise e)
  end.

#[global] Instance M_mret : MRet M := @M_ret.
#[global] Instance M_mbind : MBind M := @M_bind.

Definition emit (ev : event) : M unit := MkM [ev] (Return tt).
Definition raise {A} (e : exn) : M A := MkM [] (Raise e).

(** A call of a collaborator that has no trace of its own. *)
Definition call {A} (r : result A) : M A := MkM [] r.

(** [for x in xs: acc = body acc x], stopping at the first exception. *)
Fixpoint for_each {A B} (body : B -> A -> M B) (xs : list A) (acc : B) : M B :=
  match xs with
  | [] => mret acc
  | x :: xs' => acc' ← body acc x; for_each body xs' acc'
  end.

(** [mapM]: run [f] on every element in order and collect the results. *)
Fixpoint map_M {A B} (f : A -> M B) (xs : list A) : M (list B) :=
  match xs with
  | [] => mret []
  | x :: xs' => y ← f x; ys ← map_M f xs'; mret (y :: ys)
  end.

(** ** Collaborators that are not part of this module *)

(** Modelled from the spec: the segmentation engines ([newmm], [longest],
    [multi_cut], [deepcut], [pyicu], [tcc], [etcc]) are sibling modules of
    this package that the module imports on demand; their algorithms are
    not in the source tree.  Section 6 of the specification gives each the
    shape [segment(text, dictionary?) -> token sequence]; an engine that is
    not installed fails on its own terms, hence the [result]. *)
Record Engines : Type := {
  newmm_segment : pystr -> option Trie -> result (list pystr);
  longest_segment : pystr -> option Trie -> result (list pystr);
  multi_cut_segment : pystr -> option Trie -> result (list pystr);
  deepcut_segment : pystr -> option (list pystr) -> result (list pystr);
  pyicu_segment : pystr -> result (list pystr);
  tcc_segment : pystr -> result (list pystr);
  etcc_segment : pystr -> result (list pystr)
}.

(** Modelled from the spec: the corpus provider [pythainlp.corpus]
    ([thai_words()], [thai_syllables()] and
    [get_corpus("words_th_frozen_201810.txt")]) is not in the source tree;
    each is an iterable of vocabulary strings. *)
Record Corpus : Type := {
  thai_words : list pystr;
  thai_syllables : list pystr;
  words_th_frozen_201810 : list pystr
}.

(** The engine modules that [word_tokenize] imports, and the one its
    dispatch imports for an engine name: [onecut] shares the module of
    [newmm], [mm] that of [multi_cut], and [ulmfit] and every name that is
    not recognised use [newmm]. *)
Inductive engine_module : Type :=
  | ModNewmm
  | ModLongest
  | ModMultiCut
  | ModDeepcut
  | ModPyicu.

Definition engine_module_of (engine : pystr) : engine_module :=
  if str_eqb engine (str "newmm") || str_eqb engine (str "onecut") then ModNewmm
  else if str_eqb engine (str "longest") then ModLongest
  else if str_eqb engine (str "mm") || str_eqb engine (str "multi_cut")
  then ModMultiCut
  else if str_eqb engine (str "deepcut") then ModDeepcut
  else if str_eqb engine (str "ulmfit") then ModNewmm
  else if str_eqb engine (str "icu") then ModPyicu
  else ModNewmm.

(** Modelled from the spec: the invariant that section 3 puts on the
    segmentation function of an engine, "when whitespace is retained,
    concatenating the returned tokens reproduces the input text exactly";
    the engines themselves are not in the source tree.  It binds the
    tokens an engine returns, one engine at a time: an engine that is not
    installed, or that fails, returns none and is not bound by it
    (sections 6 and 7). *)
Definition module_reconstructs (E : Engines) (m : engine_module) : Prop :=
  match m with
  | ModNewmm =>
      forall text d tokens,
        newmm_segment E text d = Return tokens -> join tokens = text
  | ModLongest =>
      forall text d tokens,
        longest_segment E text d = Return tokens -> join tokens = text
  | ModMultiCut =>
      forall text d tokens,
        multi_cut_segment E text d = Return tokens -> join tokens = text
  | ModDeepcut =>
      forall text vocab tokens,
        deepcut_segment E text vocab = Return tokens -> join tokens = text
  | ModPyicu =>
      forall text tokens,
        pyicu_segment E text = Return tokens -> join tokens = text
  end.

(** An engine module that is installed and returns tokens on every input. *)
Definition module_returns (E : Engines) (m : engine_module) : Prop :=
  match m with
  | ModNewmm => forall text d, exists tokens, newmm_segment E text d = Return tokens
  | ModLongest =>
      forall text d, exists tokens, longest_segment E text d = Return tokens
  | ModMultiCut =>
      forall text d, exists tokens, multi_cut_segment E text d = Return tokens
  | ModDeepcut =>
      forall text vocab, exists tokens,
        deepcut_segment E text vocab = Return tokens
  | ModPyicu => forall text, exists tokens, pyicu_segment E text = Return tokens
  end.

(** ** The module [pythainlp.tokenize] *)

Section Tokenize.

(** The engines, the corpus and the file system the module runs against:
    [read_file path] is what [open(path, "r", encoding="utf8").read()]
    returns, or the error it raises. *)
Variable E : Engines.
Variable C : Corpus.
Variable read_file : pystr -> result pystr.

Definition DEFAULT_DICT_TRIE : Trie := Trie_new (thai_words C).
Definition FROZEN_DICT_TRIE : Trie := Trie_new (words_th_frozen_201810 C).

(** [[token.strip(" ") for token in segments if token.strip(" ")]] *)
Fixpoint drop_whitespace (segments : list pystr) : list pystr :=
  match segments with
  | [] => []
  | token :: rest =>
      if str_truthy (strip_space token)
      then strip_space token :: drop_whitespace rest
      else drop_whitespace rest
  end.

(** The engine dispatch of [word_tokenize], on a non-empty [str]. *)
Definition word_segments (text : pystr) (custom_dict : option Trie)
    (engine : pystr) : result (list pystr) :=
  if str_eqb engine (str "newmm") || str_eqb engine (str "onecut") then
    newmm_segment E text custom_dict
  else if str_eqb engine (str "longest") then
    longest_segment E text custom_dict
  else if str_eqb engine (str "mm") || str_eqb engine (str "multi_cut") then
    multi_cut_segment E text custom_dict
  else if str_eqb engine (str "deepcut") then
    match custom_dict with
    | Some t =>
        if truthy (PyTrie t)
        then deepcut_segment E text (Some (Trie_keys t))
        else deepcut_segment E text None
    | None => deepcut_segment E text None
    end
  else if str_eqb engine (str "ulmfit") then
    newmm_segment E text (Some FROZEN_DICT_TRIE)
  else if str_eqb engine (str "icu") then
    pyicu_segment E text
  else
    newmm_segment E text custom_dict.

Definition word_tokenize (text : pyval) (custom_dict : option Trie)
    (engine : pystr) (keep_whitespace : bool) : M (list pystr) :=
  if negb (truthy text) || negb (isinstance_str text) then mret []
  else
    segments ← call (word_segments (str_of_val text) custom_dict engine);
    if negb keep_whitespace
    then mret (drop_whitespace segments)
    else mret segments.

(** Default values of the optional parameters. *)
Definition default_engine : pystr := str "newmm".
Definition default_keep_whitespace : bool := true.
Definition default_sent_engine : pystr := str "whitespace+newline".
Definition default_subword_engine : pystr := str "tcc".

(** An optional argument: [None] when the caller leaves it out. *)
Definition arg_or {A} (default : A) (given : option A) : A :=
  match given with Some a => a | None => default end.

Definition deprecation_notice : pystr :=
  str "Deprecated. Use word_tokenize() with a custom_dict argument instead.".

(** [custom_dict], [engine] and [keep_whitespace] are optional: the
    signature gives them the defaults [DEFAULT_DICT_TRIE], ["newmm"] and
    [True]. *)
Definition dict_word_tokenize (text : pyval)
    (custom_dict : option (option Trie)) (engine : option pystr)
    (keep_whitespace : option bool) : M (list pystr) :=
  let custom_dict := arg_or (Some DEFAULT_DICT_TRIE) custom_dict in
  let engine := arg_or default_engine engine in
  let keep_whitespace := arg_or default_keep_whitespace keep_whitespace in
  _ ← emit (EvStderr deprecation_notice);
  word_tokenize text custom_dict engine keep_whitespace.

Definition sent_tokenize (text : pyval) (engine : pystr) : M (list pystr) :=
  if negb (truthy text) || negb (isinstance_str text) then mret []
  else if str_eqb engine (str "whitespace")
  then mret (re_split_spaces re_U (str_of_val text))
  else mret (split_whitespace (str_of_val text)).

Definition subword_tokenize (text : pyval) (engine : pystr) : M (list pystr) :=
  if negb (truthy text) || negb (isinstance_str text) then mret []
  else if str_eqb engine (str "etcc")
  then call (etcc_segment E (str_of_val text))
  else call (tcc_segment E (str_of_val text)).

Definition dict_source_error : pystr :=
  str "Type of dict_source must be marisa_trie.Trie, or Iterable[str], or str (path to source file)".

Definition dict_trie (dict_source : pyval) : M Trie :=
  _ ← emit (EvDictTrie dict_source);
  if isinstance_Trie dict_source then
    mret (trie_of_val dict_source)
  else if isinstance_str dict_source then
    content ← call (read_file (str_of_val dict_source));
    mret (Trie_new (splitlines content))
  else if isinstance_Iterable dict_source then
    call (Trie_of dict_source)
  else
    raise (TypeError dict_source_error).

Definition syllable_tokenize (text : pyval) : M (list pystr) :=
  if negb (truthy text) || negb (isinstance_str text) then mret []
  else
    if truthy text then
      words ← word_tokenize text None default_engine default_keep_whitespace;
      trie ← dict_trie (PyStrs (thai_syllables C));
      for_each
        (fun tokens word =>
           sub ← word_tokenize (PyStr word) (Some trie) default_engine
                   default_keep_whitespace;
           mret (tokens ++ sub))
        words []
    else mret [].

(** *** The [Tokenizer] class *)

(** The two private attributes of an instance. *)
Record Tokenizer : Type := MkTokenizer {
  trie_dict : Trie;
  tok_engine : pystr
}.

(** [Tokenizer(custom_dict, engine)] *)
Definition Tokenizer_init (custom_dict : pyval) (engine : pystr) : M Tokenizer :=
  if truthy custom_dict then
    t ← dict_trie custom_dict;
    mret (MkTokenizer t engine)
  else
    mret (MkTokenizer DEFAULT_DICT_TRIE engine).

(** [self.word_tokenize(text)]; the instance is only read. *)
Definition Tokenizer_word_tokenize (self : Tokenizer) (text : pyval)
    : M (list pystr) :=
  word_tokenize text (Some (trie_dict self)) (tok_engine self)
    default_keep_whitespace.

(** [self.set_tokenize_engine(engine)]; returns the instance afterwards. *)
Definition Tokenizer_set_tokenize_engine (self : Tokenizer) (engine : pystr)
    : Tokenizer :=
  MkTokenizer (trie_dict self) engine.

(** A method call on an instance, and a run of calls that threads the
    instance through them and collects what each call returned
    ([set_tokenize_engine] returns [None], shown as the empty list). *)
Inductive method_call : Type :=
  | CallWordTokenize (text : pyval)
  | CallSetEngine (engine : pystr).

Definition do_call (self : Tokenizer) (c : method_call)
    : M (list pystr * Tokenizer) :=
  match c with
  | CallWordTokenize text =>
      r ← Tokenizer_word_tokenize self text; mret (r, self)
  | CallSetEngine engine =>
      mret ([], Tokenizer_set_tokenize_engine self engine)
  end.

Fixpoint run_calls (self : Tokenizer) (cs : list method_call)
    : M (list (list pystr) * Tokenizer) :=
  match cs with
  | [] => mret ([], self)
  | c :: cs' =>
      '(r, self') ← do_call self c;
      '(rs, self'') ← run_calls self' cs';
      mret (r :: rs, self'')
  end.

End Tokenize.

(** ** A small concrete world

    Engines, a corpus and a file system on which the functions above can be
    run: a greedy longest-prefix matcher over the dictionary stands for the
    dictionary engines and a character splitter for the others. *)

Module Toy.

(** Thai letters used below. *)
Definition RO_RUA : N := 3619.      (* U+0E23 *)
Definition THO_THUNG : N := 3606.   (* U+0E16 *)
Definition SARA_AI : N := 3652.     (* U+0E44 *)
Definition FO_FAN : N := 3615.      (* U+0E1F *)

Definition rot : pystr := [RO_RUA; THO_THUNG].        (* "car" *)
Definition fai : pystr := [SARA_AI; FO_FAN].          (* "fire" *)
Definition rotfai : pystr := rot ++ fai.              (* "train" *)

Definition corpus : Corpus := {|
  thai_words := [rotfai; rot];
  thai_syllables := [rot; fai];
  words_th_frozen_201810 := [rot; fai]
|}.

(** Length of the longest prefix of [text] of length at most [k] that is
    in the dictionary; 1 when there is none. *)
Fixpoint longest_match (dict : Trie) (k : nat) (text : pystr) : nat :=
  match k with
  | O => 1%nat
  | S k' =>
      if bool_decide (take k text ∈ dict) then k
      else longest_match dict k' text
  end.

Fixpoint greedy_go (dict : Trie) (fuel : nat) (text : pystr) : list pystr :=
  match fuel, text with
  | _, [] => []
  | O, _ => [text]
  | S fuel', _ =>
      let k := longest_match dict (length text) text in
      take k text :: greedy_go dict fuel' (drop k text)
  end.

Definition greedy (dict : Trie) (text : pystr) : list pystr :=
  greedy_go dict (length text) text.

Definition chars (text : pystr) : list pystr := map (fun c => [c]) text.

Definition dict_or_default (custom_dict : option Trie) : Trie :=
  match custom_dict with
  | Some t => if truthy (PyTrie t) then t else DEFAULT_DICT_TRIE corpus
  | None => DEFAULT_DICT_TRIE corpus
  end.

Definition engines : Engines := {|
  newmm_segment text d := Return (greedy (dict_or_default d) text);
  longest_segment text d := Return (greedy (dict_or_default d) text);
  multi_cut_segment text d := Return (greedy (dict_or_default d) text);
  deepcut_segment text vocab :=
    match vocab with
    | Some l => Return (greedy (Trie_new l) text)
    | None => Return (chars text)
    end;
  pyicu_segment text := Return (chars text);
  tcc_segment text := Return (chars text);
  etcc_segment text := Return (chars text)
|}.

(** Engines none of which is installed. *)
Definition no_engines : Engines := {|
  newmm_segment _ _ := Raise (ImportError (str "newmm"));
  longest_segment _ _ := Raise (ImportError (str "longest"));
  multi_cut_segment _ _ := Raise (ImportError (str "multi_cut"));
  deepcut_segment _ _ := Raise (ImportError (str "deepcut"));
  pyicu_segment _ := Raise (ImportError (str "icu"));
  tcc_segment _ := Raise (ImportError (str "tcc"));
  etcc_segment _ := Raise (ImportError (str "etcc"))
|}.

(** A file system with one dictionary file, one word per line. *)
Definition words_txt : pystr := str "words.txt".

Definition read_file (path : pystr) : result pystr :=
  if str_eqb path words_txt
  then Return (rotfai ++ [NEWLINE] ++ rot ++ [NEWLINE])
  else Raise (OSError path).

End Toy.

(** ** Specification-side vocabulary *)

(** The engine names the dispatch of [word_tokenize] knows. *)
Definition recognized_engines : list pystr :=
  map str ["newmm"; "onecut"; "longest"; "mm"; "multi_cut"; "deepcut";
           "ulmfit"; "icu"]%string.

Definition is_recognized (engine : pystr) : bool :=
  existsb (str_eqb engine) recognized_engines.

(** An input that is the empty string or not a string at all. *)
Definition no_text (text : pyval) : bool :=
  negb (isinstance_str text) || negb (str_truthy (str_of_val text)).

(** Number of calls of the dictionary builder in a trace. *)
Definition is_builder_call (ev : event) : bool :=
  match ev with EvDictTrie _ => true | EvStderr _ => false end.

Definition builder_calls (tr : list event) : nat :=
  length (List.filter is_builder_call tr).

(** [result] is a functor. *)
Definition result_map {A B} (f : A -> B) (r : result A) : result B :=
  match r with Return a => Return (f a) | Raise e => Raise e end.

(** A token made of ASCII spaces only (the empty token included). *)
Definition only_spaces (s : pystr) : Prop := Forall (fun c => c = SPACE) s.

(** [u] is [t] without the ASCII spaces at its two ends: only spaces were
    removed, only at the ends, and none is left there. *)
Definition trimmed_of (t u : pystr) : Prop :=
  (exists l r, only_spaces l /\ only_spaces r /\ t = l ++ u ++ r)
  /\ head u <> Some SPACE /\ last u <> Some SPACE.

(** The whitespace post-processing in the words of the specification: the
    tokens made of spaces only are dropped, the others are kept, in order,
    each trimmed of the spaces at its ends. *)
Inductive whitespace_dropped : list pystr -> list pystr -> Prop :=
  | wd_nil : whitespace_dropped [] []
  | wd_drop t ts us :
      only_spaces t -> whitespace_dropped ts us ->
      whitespace_dropped (t :: ts) us
  | wd_keep t u ts us :
      ~ only_spaces t -> trimmed_of t u -> whitespace_dropped ts us ->
      whitespace_dropped (t :: ts) (u :: us).

(** A sample dictionary with one entry that has a tab inside, ["a\tb"]. *)
Definition tabbed : pystr := str "a" ++ [TAB] ++ str "b".

(** The syllable algorithm in the words of the specification: segment the
    whole input into words with [newmm], no custom dictionary and
    whitespace retained; build one trie from the syllable vocabulary;
    segment each word, in order, with that trie as custom dictionary; the
    output is the sub-tokens of all words, in order. *)
Definition syllable_tokenize_spec (E : Engines) (C : Corpus)
    (read_file : pystr -> result pystr) (text : pystr) : M (list pystr) :=
  words ← word_tokenize E C (PyStr text) None (str "newmm") true;
  trie ← dict_trie read_file (PyStrs (thai_syllables C));
  subs ← map_M (fun word =>
                  word_tokenize E C (PyStr word) (Some trie) (str "newmm") true)
           words;
  mret (concat subs).

(** The same with the default trie passed explicitly in the first step. *)
Definition syllable_tokenize_spec_explicit (E : Engines) (C : Corpus)
    (read_file : pystr -> result pystr) (text : pystr) : M (list pystr) :=
  words ← word_tokenize E C (PyStr text) (Some (DEFAULT_DICT_TRIE C))
            (str "newmm") true;
  trie ← dict_trie read_file (PyStrs (thai_syllables C));
  subs ← map_M (fun word =>
                  word_tokenize E C (PyStr word) (Some trie) (str "newmm") true)
           words;
  mret (concat subs).

(** Modelled from the spec: the dictionary fallback of the [newmm] engine
    (section 4.2, "uses [custom_dict] if given, else the default trie"),
    which happens inside the engine. *)
Definition newmm_falls_back_to_default (E : Engines) (C : Corpus) : Prop :=
  forall text,
    newmm_segment E text None = newmm_segment E text (Some (DEFAULT_DICT_TRIE C)).

(** A piece without any ASCII space. *)
Definition no_space (p : pystr) : Prop := Forall (fun c => c <> SPACE) p.

(** Splitting at every maximal run of one or more ASCII spaces, in the
    words of the specification: the pieces hold no space, and consecutive
    pieces are separated in the text by a non-empty run of spaces that the
    next piece does not continue. *)
Inductive split_at_space_runs : pystr -> list pystr -> Prop :=
  | sr_last p : no_space p -> split_at_space_runs p [p]
  | sr_run p run rest pieces :
      no_space p -> run <> [] -> only_spaces run ->
      head rest <> Some SPACE ->
      split_at_space_runs rest pieces ->
      split_at_space_runs (p ++ run ++ rest) (p :: pieces).

(** Number of runs of spaces that start in [s] ([in_run]: a run is already
    open at its first character). *)
Fixpoint space_runs (in_run : bool) (s : pystr) : nat :=
  match s with
  | [] => O
  | c :: s' =>
      if N.eqb c SPACE
      then ((if in_run then 0 else 1) + space_runs true s')%nat
      else space_runs false s'
  end.

(** ["a a a ... a"]: [n + 1] words separated by [n] single spaces. *)
Definition spaced_words (n : nat) : pystr := concat (repeat (str "a ") n) ++ str "a".

(** [name] occurs in [msg]. *)
Fixpoint is_prefix (p s : pystr) : bool :=
  match p, s with
  | [], _ => true
  | x :: p', y :: s' => N.eqb x y && is_prefix p' s'
  | _ :: _, [] => false
  end.

Fixpoint mentions (msg name : pystr) : bool :=
  is_prefix name msg
  || match msg with [] => false | _ :: msg' => mentions msg' name end.

(** A dictionary source that is neither a trie, nor a string, nor an
    iterable of any kind: the three tests of [dict_trie] all fail. *)
Definition unsupported_source (v : pyval) : bool :=
  negb (isinstance_Trie v) && negb (isinstance_str v)
  && negb (isinstance_Iterable v).

(** Construction of a [Tokenizer] in the words of the specification: the
    argument goes through the dictionary builder whenever one is given,
    the default trie is bound when none is. *)
Definition Tokenizer_init_spec (C : Corpus) (read_file : pystr -> result pystr)
    (custom_dict : pyval) (engine : pystr) : M Tokenizer :=
  match custom_dict with
  | PyNone => mret (MkTokenizer (DEFAULT_DICT_TRIE C) engine)
  | given => t ← dict_trie read_file given; mret (MkTokenizer t engine)
  end.

(** The engine name of an instance after a run of method calls. *)
Fixpoint engine_after (engine : pystr) (cs : list method_call) : pystr :=
  match cs with
  | [] => engine
  | CallSetEngine e :: cs' => engine_after e cs'
  | CallWordTokenize _ :: cs' => engine_after engine cs'
  end.

(** A string with its ASCII spaces removed, and with all its whitespace
    removed. *)
Definition remove_spaces (s : pystr) : pystr :=
  List.filter (fun c => negb (N.eqb c SPACE)) s.

Definition remove_whitespace (s : pystr) : pystr :=
  List.filter (fun c => negb (py_isspace c)) s.

(** A string without any whitespace character, and one without any
    line-break character. *)
Definition no_whitespace (p : pystr) : Prop :=
  Forall (fun c => py_isspace c = false) p.

Definition no_linebreak (p : pystr) : Prop :=
  Forall (fun c => py_islinebreak c = false) p.

(** A token that is not empty and has no ASCII space at either end. *)
Definition trimmed_token (t : pystr) : Prop :=
  t <> [] /\ head t <> Some SPACE /\ last t <> Some SPACE.

(** A second sample world in which only the [newmm] engine is installed and
    the corpus has the syllable vocabulary only. *)
Definition toy_newmm_only : Engines := {|
  newmm_segment := newmm_segment Toy.engines;
  longest_segment := longest_segment Toy.no_engines;
  multi_cut_segment := multi_cut_segment Toy.no_engines;
  deepcut_segment := deepcut_segment Toy.no_engines;
  pyicu_segment := pyicu_segment Toy.no_engines;
  tcc_segment := tcc_segment Toy.no_engines;
  etcc_segment := etcc_segment Toy.no_engines
|}.

Definition toy_syllables_only : Corpus := {|
  thai_words := [];
  thai_syllables := thai_syllables Toy.corpus;
  words_th_frozen_201810 := []
|}.

(** A file system without any file. *)
Definition no_files (path : pystr) : result pystr := Raise (OSError path).

(** ** Basic facts *)

Lemma str_eqb_eq (a b : pystr) : str_eqb a b = true <-> a = b.
Proof.
  revert b; induction a as [|x a IH]; intros [|y b]; simpl; split;
    try congruence; try discriminate.
  - rewrite andb_true_iff, N.eqb_eq, IH. intros [-> ->]; reflexivity.
  - intros [= -> ->]. rewrite N.eqb_refl. simpl. apply IH. reflexivity.
Qed.

Lemma str_eqb_refl (a : pystr) : str_eqb a a = true.
Proof. apply str_eqb_eq; reflexivity. Qed.

Lemma M_eta {A} (m : M A) : MkM (trace m) (outcome m) = m.
Proof. destruct m; reflexivity. Qed.

Lemma M_bind_ret_l {A B} (a : A) (f : A -> M B) : mret a ≫= f = f a.
Proof. unfold mbind, M_mbind, M_bind, mret, M_mret, M_ret. simpl. apply M_eta. Qed.

Lemma M_bind_ret_r {A} (m : M A) : m ≫= mret = m.
Proof.
  destruct m as [t [a|e]]; unfold mbind, M_mbind, M_bind; simpl;
    [rewrite app_nil_r|]; reflexivity.
Qed.

Lemma M_bind_assoc {A B D} (m : M A) (f : A -> M B) (g : B -> M D) :
  (m ≫= f) ≫= g = m ≫= (fun a => f a ≫= g).
Proof.
  destruct m as [t [a|e]]; unfold mbind, M_mbind, M_bind; simpl; [|reflexivity].
  destruct (f a) as [t' [b|e']]; simpl; [|reflexivity].
  destruct (g b) as [t'' r]; simpl. rewrite app_assoc. reflexivity.
Qed.

Lemma M_bind_ext {A B} (m : M A) (f g : A -> M B) :
  (forall a, f a = g a) -> m ≫= f = m ≫= g.
Proof.
  intros H. destruct m as [t [a|e]]; unfold mbind, M_mbind, M_bind; simpl;
    [rewrite H|]; reflexivity.
Qed.

Lemma M_bind_returned {A B} (a : A) (f : A -> M B) :
  MkM [] (Return a) ≫= f = f a.
Proof. apply (M_bind_ret_l a f). Qed.

Lemma M_bind_call_return {A B} (a : A) (f : A -> M B) :
  call (Return a) ≫= f = f a.
Proof. apply (M_bind_ret_l a f). Qed.

Lemma M_bind_call_raise {A B} (e : exn) (f : A -> M B) :
  call (Raise e) ≫= f = MkM [] (Raise e).
Proof. reflexivity. Qed.

(** The guard shared by the four entry points. *)
Lemma guard_no_text (text : pyval) :
  negb (truthy text) || negb (isinstance_str text) = no_text text.
Proof. destruct text as [| [] | z | [|c s] | [|x l] | t | [|x l]]; simpl; try reflexivity;
  destruct (Z.eqb z 0) || destruct (Nat.eqb (Trie_len t) 0); reflexivity. Qed.

Lemma guard_text (s : pystr) :
  negb (truthy (PyStr s)) || negb (isinstance_str (PyStr s)) = negb (str_truthy s).
Proof. simpl. apply orb_false_r. Qed.

(** [word_tokenize] leaves no trace, whatever the engines do. *)
Lemma word_tokenize_trace E C text d engine kw :
  trace (word_tokenize E C text d engine kw) = [].
Proof.
  unfold word_tokenize.
  destruct (negb (truthy text) || negb (isinstance_str text)); [reflexivity|].
  destruct (word_segments E C (str_of_val text) d engine) as [segs|e];
    [rewrite M_bind_call_return; destruct kw|]; reflexivity.
Qed.

Lemma word_tokenize_no_text E C text d engine kw :
  no_text text = true ->
  word_tokenize E C text d engine kw = MkM [] (Return []).
Proof. intros H. unfold word_tokenize. rewrite guard_no_text, H. reflexivity. Qed.

(** The outcome of [word_tokenize] on a non-empty string, by cases on what
    the selected engine does. *)
Lemma word_tokenize_str E C c s d engine kw :
  word_tokenize E C (PyStr (c :: s)) d engine kw =
  MkM [] (result_map (fun segs => if kw then segs else drop_whitespace segs)
            (word_segments E C (c :: s) d engine)).
Proof.
  unfold word_tokenize. rewrite guard_text. cbn [str_truthy negb str_of_val].
  destruct (word_segments E C (c :: s) d engine) as [segs|e];
    [rewrite M_bind_call_return; destruct kw|]; reflexivity.
Qed.

(** ** Empty and non-string input (C4) *)



(** ** Engine dispatch (C5, C8, C10) *)

Lemma is_recognized_false (engine : pystr) :
  is_recognized engine = false ->
  str_eqb engine (str "newmm") = false
  /\ str_eqb engine (str "onecut") = false
  /\ str_eqb engine (str "longest") = false
  /\ str_eqb engine (str "mm") = false
  /\ str_eqb engine (str "multi_cut") = false
  /\ str_eqb engine (str "deepcut") = false
  /\ str_eqb engine (str "ulmfit") = false
  /\ str_eqb engine (str "icu") = false.
Proof.
  unfold is_recognized, recognized_engines.
  cbn [map existsb]. rewrite !orb_false_iff. tauto.
Qed.

(** An unrecognised name selects the [newmm] engine. *)
Lemma word_segments_unrecognized E C text d engine :
  is_recognized engine = false ->
  word_segments E C text d engine = newmm_segment E text d.
Proof.
  intros H. apply is_recognized_false in H.
  destruct H as (H1 & H2 & H3 & H4 & H5 & H6 & H7 & H8).
  unfold word_segments. rewrite H1, H2, H3, H4, H5, H6, H7, H8. reflexivity.
Qed.

(** C5.  With an engine name that is none of [newmm], [onecut], [longest],
    [mm], [multi_cut], [deepcut], [ulmfit], [icu], [word_tokenize] does
    exactly what it does with [engine="newmm"], for every text, custom
    dictionary and [keep_whitespace]: the same tokens, or the same
    exception of the [newmm] engine, and none caused by the name. *)
Theorem unrecognized_engine_behaves_as_newmm
    (E : Engines) (C : Corpus) (text : pyval) (custom_dict : option Trie)
    (engine : pystr) (keep_whitespace : bool)
    (Hname : is_recognized engine = false) :
  word_tokenize E C text custom_dict engine keep_whitespace
  = word_tokenize E C text custom_dict (str "newmm") keep_whitespace.
Proof.
  unfold word_tokenize.
  destruct (negb (truthy text) || negb (isinstance_str text)); [reflexivity|].
  rewrite (word_segments_unrecognized E C _ _ engine Hname). reflexivity.
Qed.

Lemma unrecognized_engine_witness :
  is_recognized (str "nonexistent_name") = false
  /\ word_tokenize Toy.engines Toy.corpus
       (PyStr (Toy.rotfai ++ [SPACE] ++ Toy.rot)) None
       (str "nonexistent_name") false
     = word_tokenize Toy.engines Toy.corpus
         (PyStr (Toy.rotfai ++ [SPACE] ++ Toy.rot)) None (str "newmm") false.
Proof.
  split; [reflexivity|].
  apply (unrecognized_engine_behaves_as_newmm Toy.engines Toy.corpus).
  reflexivity.
Defined.

(** C8.  With [engine="ulmfit"] the supplied [custom_dict] is ignored and
    the result is that of the [newmm] engine run on the frozen trie: it
    equals [word_tokenize] with [engine="newmm"] and
    [custom_dict=FROZEN_DICT_TRIE]. *)
Theorem ulmfit_uses_frozen_trie
    (E : Engines) (C : Corpus) (text : pyval) (custom_dict : option Trie)
    (keep_whitespace : bool) :
  word_tokenize E C text custom_dict (str "ulmfit") keep_whitespace
  = word_tokenize E C text (Some (FROZEN_DICT_TRIE C)) (str "newmm")
      keep_whitespace
  /\ forall other_dict,
      word_tokenize E C text custom_dict (str "ulmfit") keep_whitespace
      = word_tokenize E C text other_dict (str "ulmfit") keep_whitespace.
Proof.
  split; [|intros other_dict]; unfold word_tokenize;
    destruct (negb (truthy text) || negb (isinstance_str text)); reflexivity.
Qed.

(** C10.  The deprecated [dict_word_tokenize] returns what [word_tokenize]
    returns on the same arguments (tokens or exception); the only addition
    to the trace is one deprecation line on stderr, written first; and when
    [custom_dict] is left out it is [DEFAULT_DICT_TRIE] (the engine and
    [keep_whitespace] default to ["newmm"] and [True]). *)
Theorem dict_word_tokenize_forwards
    (E : Engines) (C : Corpus) (text : pyval) (custom_dict : option Trie)
    (engine : pystr) (keep_whitespace : bool) :
  outcome (dict_word_tokenize E C text (Some custom_dict) (Some engine)
             (Some keep_whitespace))
  = outcome (word_tokenize E C text custom_dict engine keep_whitespace)
  /\ trace (dict_word_tokenize E C text (Some custom_dict) (Some engine)
              (Some keep_whitespace))
     = EvStderr deprecation_notice
       :: trace (word_tokenize E C text custom_dict engine keep_whitespace)
  /\ dict_word_tokenize E C text None (Some engine) (Some keep_whitespace)
     = dict_word_tokenize E C text (Some (Some (DEFAULT_DICT_TRIE C)))
         (Some engine) (Some keep_whitespace)
  /\ dict_word_tokenize E C text None None None
     = dict_word_tokenize E C text (Some (Some (DEFAULT_DICT_TRIE C)))
         (Some (str "newmm")) (Some true).
Proof.
  unfold dict_word_tokenize, arg_or, emit.
  unfold mbind, M_mbind, M_bind. cbn [outcome trace app].
  repeat split.
Qed.

(** ** Whitespace post-processing (C6) *)

Lemma rev_is_reverse {A} (l : list A) : rev l = reverse l.
Proof. apply rev_alt. Qed.

Lemma lstrip_space_split (s : pystr) :
  exists l, only_spaces l /\ s = l ++ lstrip_space s.
Proof.
  induction s as [|c s (l & Hl & Hs)]; simpl.
  - exists []. split; [constructor | reflexivity].
  - destruct (N.eqb_spec c SPACE) as [->|Hc].
    + exists (SPACE :: l). split; [constructor; auto|]. simpl. congruence.
    + exists []. split; [constructor | reflexivity].
Qed.

Lemma lstrip_space_head (s : pystr) : head (lstrip_space s) <> Some SPACE.
Proof.
  induction s as [|c s IH]; simpl; [discriminate|].
  destruct (N.eqb_spec c SPACE) as [->|Hc]; [exact IH|].
  simpl. congruence.
Qed.

Lemma lstrip_space_id (s : pystr) : head s <> Some SPACE -> lstrip_space s = s.
Proof.
  destruct s as [|c s]; simpl; [reflexivity|].
  destruct (N.eqb_spec c SPACE) as [->|Hc]; [congruence | reflexivity].
Qed.

Lemma lstrip_space_only_spaces (s : pystr) :
  only_spaces s -> lstrip_space s = [].
Proof.
  induction 1 as [|c s Hc _ IH]; simpl; [reflexivity|].
  rewrite Hc, N.eqb_refl. exact IH.
Qed.

Lemma only_spaces_rev (s : pystr) : only_spaces s -> only_spaces (rev s).
Proof. unfold only_spaces. rewrite !Forall_forall. intros H c Hc.
  apply H. apply list_elem_of_In. apply in_rev. apply list_elem_of_In. exact Hc. Qed.

Lemma rstrip_space_split (s : pystr) :
  exists r, only_spaces r /\ s = rstrip_space s ++ r.
Proof.
  unfold rstrip_space.
  destruct (lstrip_space_split (rev s)) as (l & Hl & Hs).
  exists (rev l). split; [apply only_spaces_rev; exact Hl|].
  rewrite <- rev_app_distr, <- Hs, rev_involutive. reflexivity.
Qed.

Lemma rstrip_space_last (s : pystr) : last (rstrip_space s) <> Some SPACE.
Proof.
  unfold rstrip_space. rewrite rev_is_reverse, last_reverse.
  apply lstrip_space_head.
Qed.

Lemma rstrip_space_id (s : pystr) : last s <> Some SPACE -> rstrip_space s = s.
Proof.
  intros H. unfold rstrip_space. rewrite lstrip_space_id.
  - apply rev_involutive.
  - rewrite rev_is_reverse, head_reverse. exact H.
Qed.

(** [strip(" ")] removes spaces, only spaces, only at the two ends, and all
    of them there. *)
Lemma strip_space_trimmed (t : pystr) : trimmed_of t (strip_space t).
Proof.
  unfold trimmed_of, strip_space.
  destruct (lstrip_space_split t) as (l & Hl & Ht).
  destruct (rstrip_space_split (lstrip_space t)) as (r & Hr & Hu).
  split; [|split].
  - exists l, r. repeat split; try assumption. rewrite <- Hu. exact Ht.
  - pose proof (lstrip_space_head t) as Hh. rewrite Hu in Hh.
    destruct (rstrip_space (lstrip_space t)); [discriminate | exact Hh].
  - apply rstrip_space_last.
Qed.

Lemma strip_space_id (t : pystr) :
  head t <> Some SPACE -> last t <> Some SPACE -> strip_space t = t.
Proof.
  intros Hh Hl. unfold strip_space. rewrite lstrip_space_id by exact Hh.
  apply rstrip_space_id. exact Hl.
Qed.

(** A token strips to the empty string exactly when it is made of spaces. *)
Lemma strip_space_empty (t : pystr) :
  str_truthy (strip_space t) = false <-> only_spaces t.
Proof.
  split.
  - intros H. destruct (strip_space_trimmed t) as ((l & r & Hl & Hr & Ht) & _).
    destruct (strip_space t); [|discriminate].
    rewrite Ht. unfold only_spaces. rewrite !Forall_app. auto.
  - intros H. unfold strip_space. rewrite (lstrip_space_only_spaces t H).
    reflexivity.
Qed.

Lemma drop_whitespace_spec (segments : list pystr) :
  whitespace_dropped segments (drop_whitespace segments).
Proof.
  induction segments as [|t ts IH]; simpl; [constructor|].
  destruct (str_truthy (strip_space t)) eqn:Ht.
  - apply wd_keep; [|apply strip_space_trimmed|exact IH].
    intros Hs. apply strip_space_empty in Hs. congruence.
  - apply wd_drop; [apply strip_space_empty; exact Ht | exact IH].
Qed.

Lemma drop_whitespace_keeps (segments : list pystr) (token : pystr) :
  In token segments -> In TAB token ->
  head token <> Some SPACE -> last token <> Some SPACE ->
  In token (drop_whitespace segments).
Proof.
  intros Hin Htab Hh Hl.
  induction segments as [|t ts IH]; simpl in *; [contradiction|].
  destruct Hin as [->|Hin].
  - rewrite (strip_space_id token Hh Hl).
    destruct token; [contradiction|]. simpl. left. reflexivity.
  - destruct (str_truthy (strip_space t)); [right|]; apply IH; exact Hin.
Qed.

(** C6.  For every engine and input, [word_tokenize] with
    [keep_whitespace=False] returns the tokens it returns with
    [keep_whitespace=True] after this step: a token is dropped exactly when
    it consists of ASCII spaces only (it is empty once stripped), every
    other token is kept, in order, with the ASCII spaces at its two ends
    removed and nothing else changed.  A token with a tab inside and no
    space at its ends is returned as it is. *)
Theorem keep_whitespace_false_strips_spaces_only
    (E : Engines) (C : Corpus) (text : pyval) (custom_dict : option Trie)
    (engine : pystr) :
  match outcome (word_tokenize E C text custom_dict engine true) with
  | Return segments =>
      exists out,
        word_tokenize E C text custom_dict engine false = MkM [] (Return out)
        /\ whitespace_dropped segments out
        /\ forall token,
            In token segments -> In TAB token ->
            head token <> Some SPACE -> last token <> Some SPACE ->
            In token out
  | Raise e =>
      word_tokenize E C text custom_dict engine false = MkM [] (Raise e)
  end.
Proof.
  destruct (no_text text) eqn:Hno.
  { rewrite !(word_tokenize_no_text E C text) by exact Hno.
    exists []. repeat split; [constructor | intros ? []]. }
  destruct text as [| b | z | [|c s] | l | t | l]; try discriminate Hno.
  rewrite !word_tokenize_str.
  destruct (word_segments E C (c :: s) custom_dict engine) as [segs|e];
    cbn [outcome result_map]; [|reflexivity].
  exists (drop_whitespace segs). repeat split.
  - apply drop_whitespace_spec.
  - apply drop_whitespace_keeps.
Qed.

Lemma keep_whitespace_false_witness :
  exists out,
    word_tokenize Toy.engines Toy.corpus
      (PyStr (str " " ++ tabbed ++ str "  ")) (Some (Trie_new [tabbed]))
      (str "newmm") false = MkM [] (Return out)
    /\ In tabbed out.
Proof.
  pose proof (keep_whitespace_false_strips_spaces_only Toy.engines Toy.corpus
                (PyStr (str " " ++ tabbed ++ str "  "))
                (Some (Trie_new [tabbed])) (str "newmm")) as H.
  change (outcome _) with (Return [[SPACE]; tabbed; [SPACE]; [SPACE]]) in H.
  destruct H as (out & Heq & _ & Hkeep).
  exists out. split; [exact Heq|].
  apply Hkeep.
  - right; left; reflexivity.
  - right; left; reflexivity.
  - discriminate.
  - discriminate.
Defined.

(** ** Reconstruction (C1) and the syllable algorithm (C2) *)

Lemma dict_trie_iterable read_file (vocab : list pystr) :
  dict_trie read_file (PyStrs vocab)
  = MkM [EvDictTrie (PyStrs vocab)] (Return (Trie_new vocab)).
Proof. reflexivity. Qed.

(** The loop of [syllable_tokenize] collects, after what it already has, the
    sub-tokens of every word in order. *)
Lemma for_each_extend {A} (f : A -> M (list pystr)) (xs : list A)
    (acc : list pystr) :
  for_each (fun tokens x => sub ← f x; mret (tokens ++ sub)) xs acc
  = subs ← map_M f xs; mret (acc ++ concat subs).
Proof.
  revert acc; induction xs as [|x xs IH]; intros acc; cbn [for_each map_M].
  - rewrite M_bind_ret_l. cbn [concat]. rewrite app_nil_r. reflexivity.
  - rewrite !M_bind_assoc. apply M_bind_ext; intros sub.
    rewrite M_bind_ret_l, IH, M_bind_assoc.
    apply M_bind_ext; intros ys.
    rewrite M_bind_ret_l. cbn [concat]. rewrite app_assoc. reflexivity.
Qed.

(** C2.  On a non-empty string [syllable_tokenize] is the two-layer
    composition: [word_tokenize] on the whole input with [newmm], the
    default word dictionary (no custom dictionary) and whitespace retained;
    one trie built from the syllable vocabulary; then [word_tokenize] on
    each word token, in order, with that trie as custom dictionary, every
    sub-token appended in order.  Outcome and trace agree. *)
Theorem syllable_tokenize_is_two_layer_composition
    (E : Engines) (C : Corpus) (read_file : pystr -> result pystr)
    (text : pystr) (Hne : str_truthy text = true) :
  syllable_tokenize E C read_file (PyStr text)
  = syllable_tokenize_spec E C read_file text.
Proof.
  unfold syllable_tokenize, syllable_tokenize_spec.
  rewrite guard_text. cbn [truthy]. rewrite Hne. cbn [negb].
  unfold default_engine, default_keep_whitespace.
  apply M_bind_ext; intros words. apply M_bind_ext; intros trie.
  apply for_each_extend.
Qed.

Lemma syllable_tokenize_composition_witness :
  str_truthy (Toy.rotfai ++ [SPACE] ++ Toy.rot) = true
  /\ syllable_tokenize Toy.engines Toy.corpus Toy.read_file
       (PyStr (Toy.rotfai ++ [SPACE] ++ Toy.rot))
     = syllable_tokenize_spec Toy.engines Toy.corpus Toy.read_file
         (Toy.rotfai ++ [SPACE] ++ Toy.rot).
Proof.
  split; [reflexivity|].
  apply (syllable_tokenize_is_two_layer_composition
           Toy.engines Toy.corpus Toy.read_file).
  reflexivity.
Defined.

(** When the [newmm] engine falls back to the default trie as section 4.2
    says, passing that trie explicitly in the first step changes nothing. *)
Lemma syllable_tokenize_explicit_default
    (E : Engines) (C : Corpus) (read_file : pystr -> result pystr)
    (text : pystr) :
  newmm_falls_back_to_default E C ->
  str_truthy text = true ->
  syllable_tokenize E C read_file (PyStr text)
  = syllable_tokenize_spec_explicit E C read_file text.
Proof.
  intros Hfb Hne.
  unfold syllable_tokenize, syllable_tokenize_spec_explicit.
  rewrite guard_text. cbn [truthy]. rewrite Hne. cbn [negb].
  unfold default_engine, default_keep_whitespace.
  destruct text as [|c s]; [discriminate|].
  rewrite !word_tokenize_str.
  replace (word_segments E C (c :: s) (Some (DEFAULT_DICT_TRIE C)) (str "newmm"))
    with (word_segments E C (c :: s) None (str "newmm"))
    by (exact (Hfb (c :: s))).
  apply M_bind_ext; intros words. apply M_bind_ext; intros trie.
  apply for_each_extend.
Qed.

(** The tokens returned by the dispatch come from the module of the engine
    name, so the invariant of that module is all they need. *)
Lemma word_segments_returned E C text d engine tokens :
  module_reconstructs E (engine_module_of engine) ->
  word_segments E C text d engine = Return tokens ->
  join tokens = text.
Proof.
  unfold word_segments, engine_module_of.
  repeat match goal with
         | |- context [if ?b then _ else _] => destruct b
         | |- context [match ?o with Some _ => _ | None => _ end] => destruct o
         end;
    cbn [module_reconstructs]; intros Hinv Hret; eapply Hinv; exact Hret.
Qed.

(** The dispatch adds no failure of its own: it returns when the module of
    the engine name does. *)
Lemma word_segments_returns E C text d engine :
  module_returns E (engine_module_of engine) ->
  exists tokens, word_segments E C text d engine = Return tokens.
Proof.
  unfold word_segments, engine_module_of.
  repeat match goal with
         | |- context [if ?b then _ else _] => destruct b
         | |- context [match ?o with Some _ => _ | None => _ end] => destruct o
         end;
    cbn [module_returns]; intros Hret; apply Hret.
Qed.

Lemma word_tokenize_returned E C s d engine tokens :
  module_reconstructs E (engine_module_of engine) ->
  outcome (word_tokenize E C (PyStr s) d engine true) = Return tokens ->
  join tokens = s.
Proof.
  intros Hinv. destruct s as [|c s].
  - intros [= <-]. reflexivity.
  - rewrite word_tokenize_str.
    destruct (word_segments E C (c :: s) d engine) as [segs|e] eqn:Hseg;
      cbn [outcome result_map]; [|discriminate].
    intros [= <-]. exact (word_segments_returned E C _ d engine segs Hinv Hseg).
Qed.

Lemma word_tokenize_returns E C s d engine :
  module_reconstructs E (engine_module_of engine) ->
  module_returns E (engine_module_of engine) ->
  exists tokens,
    word_tokenize E C (PyStr s) d engine true = MkM [] (Return tokens)
    /\ join tokens = s.
Proof.
  intros Hinv Hret. destruct s as [|c s].
  - exists []. split; reflexivity.
  - rewrite word_tokenize_str.
    destruct (word_segments_returns E C (c :: s) d engine Hret) as (tokens & Hseg).
    rewrite Hseg. exists tokens. split; [reflexivity|].
    exact (word_segments_returned E C _ d engine tokens Hinv Hseg).
Qed.

(** Segmenting every word of a list: what is returned concatenates to the
    words, and everything returns when every word does. *)
Lemma map_M_returned (f : pystr -> M (list pystr)) (words : list pystr) :
  (forall w tokens, outcome (f w) = Return tokens -> join tokens = w) ->
  forall subs,
    outcome (map_M f words) = Return subs ->
    join (concat subs) = join words.
Proof.
  intros Hf. induction words as [|w ws IH]; intros subs.
  - intros [= <-]. reflexivity.
  - cbn [map_M]. pose proof (Hf w) as Hw.
    destruct (f w) as [t [tokens|e]]; [|discriminate].
    destruct (map_M f ws) as [t' [subs'|e]]; [|discriminate].
    unfold mbind, M_mbind, M_bind. cbn [outcome trace]. intros [= <-].
    unfold join in *. cbn [concat].
    rewrite concat_app, (IH subs' eq_refl), (Hw tokens eq_refl). reflexivity.
Qed.

Lemma map_M_returns (f : pystr -> M (list pystr)) (words : list pystr) :
  (forall w, exists tokens, f w = MkM [] (Return tokens)) ->
  exists subs, map_M f words = MkM [] (Return subs).
Proof.
  intros Hf. induction words as [|w ws (subs & Hs)].
  - exists []. reflexivity.
  - destruct (Hf w) as (tokens & Hw).
    exists (tokens :: subs). cbn [map_M]. rewrite Hw, Hs. reflexivity.
Qed.

(** [syllable_tokenize] on a non-empty string, once the [newmm] engine has
    returned the words of the text. *)
Lemma syllable_tokenize_words E C read_file c s words :
  newmm_segment E (c :: s) None = Return words ->
  outcome (syllable_tokenize E C read_file (PyStr (c :: s)))
  = outcome (subs ← map_M (fun word =>
                             word_tokenize E C (PyStr word)
                               (Some (Trie_new (thai_syllables C)))
                               (str "newmm") true) words;
             mret (concat subs)).
Proof.
  intros Hwords.
  unfold syllable_tokenize. rewrite guard_text. cbn [truthy str_truthy negb].
  unfold default_engine, default_keep_whitespace.
  rewrite word_tokenize_str.
  change (word_segments E C (c :: s) None (str "newmm"))
    with (newmm_segment E (c :: s) None).
  rewrite Hwords. cbn [result_map].
  rewrite M_bind_returned, dict_trie_iterable.
  unfold mbind at 1, M_mbind, M_bind. cbn [outcome trace].
  rewrite for_each_extend. reflexivity.
Qed.

(** C1.  With whitespace retained, the tokens that [word_tokenize] returns
    for a string concatenate to that string, for every engine name and
    dictionary, as soon as the one engine module that the name selects
    keeps the invariant of the specification on the tokens it returns; and
    when that module returns on every input, so does [word_tokenize].  The
    same holds of [syllable_tokenize], which needs the [newmm] module
    only.  Engines that are not installed or that fail are allowed. *)
Theorem tokens_reconstruct_input
    (E : Engines) (C : Corpus) (read_file : pystr -> result pystr)
    (s : pystr) :
  (forall custom_dict engine,
      module_reconstructs E (engine_module_of engine) ->
      (forall tokens,
          outcome (word_tokenize E C (PyStr s) custom_dict engine true)
          = Return tokens ->
          join tokens = s)
      /\ (module_returns E (engine_module_of engine) ->
          exists tokens,
            word_tokenize E C (PyStr s) custom_dict engine true
            = MkM [] (Return tokens)
            /\ join tokens = s))
  /\ (module_reconstructs E ModNewmm ->
      (forall tokens,
          outcome (syllable_tokenize E C read_file (PyStr s)) = Return tokens ->
          join tokens = s)
      /\ (module_returns E ModNewmm ->
          exists tokens,
            outcome (syllable_tokenize E C read_file (PyStr s)) = Return tokens
            /\ join tokens = s)).
Proof.
  split.
  { intros d engine Hinv. split.
    - intros tokens. apply word_tokenize_returned. exact Hinv.
    - intros Hret. apply word_tokenize_returns; assumption. }
  intros Hinv.
  assert (Hword : forall w dict tokens,
             outcome (word_tokenize E C (PyStr w) dict (str "newmm") true)
             = Return tokens -> join tokens = w).
  { intros w dict tokens. apply word_tokenize_returned. exact Hinv. }
  destruct s as [|c s].
  { split; [intros tokens [= <-]; reflexivity|].
    intros _. exists []. split; reflexivity. }
  split.
  - intros tokens.
    destruct (newmm_segment E (c :: s) None) as [words|e] eqn:Hwords.
    + rewrite (syllable_tokenize_words E C read_file c s words Hwords).
      pose proof (map_M_returned
                    (fun word => word_tokenize E C (PyStr word)
                                   (Some (Trie_new (thai_syllables C)))
                                   (str "newmm") true) words
                    (fun w toks => Hword w _ toks)) as Hsubs.
      destruct (map_M _ words) as [t [subs|e]]; [|discriminate].
      unfold mbind, M_mbind, M_bind. cbn [outcome trace M_ret mret M_mret].
      intros [= <-]. rewrite (Hsubs subs eq_refl).
      exact (Hinv (c :: s) None words Hwords).
    + unfold syllable_tokenize. rewrite guard_text.
      cbn [truthy str_truthy negb].
      unfold default_engine, default_keep_whitespace.
      rewrite word_tokenize_str.
      change (word_segments E C (c :: s) None (str "newmm"))
        with (newmm_segment E (c :: s) None).
      rewrite Hwords. discriminate.
  - intros Hret.
    destruct (Hret (c :: s) None) as (words & Hwords).
    rewrite (syllable_tokenize_words E C read_file c s words Hwords).
    destruct (map_M_returns
                (fun word => word_tokenize E C (PyStr word)
                               (Some (Trie_new (thai_syllables C)))
                               (str "newmm") true) words) as (subs & Hsubs).
    { intros w.
      destruct (word_tokenize_returns E C w
                  (Some (Trie_new (thai_syllables C))) (str "newmm") Hinv Hret)
        as (tokens & Htok & _).
      exists tokens. exact Htok. }
    pose proof (map_M_returned
                  (fun word => word_tokenize E C (PyStr word)
                                 (Some (Trie_new (thai_syllables C)))
                                 (str "newmm") true) words
                  (fun w toks => Hword w _ toks) subs) as Hjoin.
    rewrite Hsubs in Hjoin |- *.
    exists (concat subs). split; [reflexivity|].
    rewrite (Hjoin eq_refl). exact (Hinv (c :: s) None words Hwords).
Qed.

Lemma toy_greedy_join (dict : Trie) (fuel : nat) (text : pystr) :
  join (Toy.greedy_go dict fuel text) = text.
Proof.
  revert text; induction fuel as [|fuel IH]; intros [|c s]; try reflexivity.
  - cbn [Toy.greedy_go]. unfold join. cbn [concat]. apply app_nil_r.
  - cbn [Toy.greedy_go]. unfold join in *. cbn [concat]. rewrite IH.
    apply take_drop.
Qed.

Lemma toy_chars_join (text : pystr) : join (Toy.chars text) = text.
Proof.
  induction text as [|c s IH]; [reflexivity|].
  unfold join, Toy.chars in *. cbn [map concat]. rewrite IH. reflexivity.
Qed.

(** The engines of the sample world keep the invariant and return on every
    input. *)
Lemma toy_modules_reconstruct (m : engine_module) :
  module_reconstructs Toy.engines m.
Proof.
  destruct m; cbn [module_reconstructs].
  - intros text d tokens [= <-]. apply toy_greedy_join.
  - intros text d tokens [= <-]. apply toy_greedy_join.
  - intros text d tokens [= <-]. apply toy_greedy_join.
  - intros text [l|] tokens [= <-];
      [apply toy_greedy_join | apply toy_chars_join].
  - intros text tokens [= <-]. apply toy_chars_join.
Qed.

Lemma toy_modules_return (m : engine_module) : module_returns Toy.engines m.
Proof.
  destruct m; cbn [module_returns].
  - intros text d. eexists. reflexivity.
  - intros text d. eexists. reflexivity.
  - intros text d. eexists. reflexivity.
  - intros text [l|]; eexists; reflexivity.
  - intros text. eexists. reflexivity.
Qed.

(** Where only [newmm] is installed the other modules return nothing, so
    the invariant asks nothing of them, and [newmm] keeps it. *)
Lemma toy_newmm_only_reconstructs (m : engine_module) :
  module_reconstructs toy_newmm_only m.
Proof.
  destruct m; cbn [module_reconstructs].
  - intros text d tokens [= <-]. apply toy_greedy_join.
  - intros text d tokens H. discriminate H.
  - intros text d tokens H. discriminate H.
  - intros text d tokens H. discriminate H.
  - intros text tokens H. discriminate H.
Qed.

Lemma toy_newmm_only_returns : module_returns toy_newmm_only ModNewmm.
Proof. intros text d. eexists. reflexivity. Qed.

Lemma toy_newmm_only_longest_missing :
  ~ module_returns toy_newmm_only ModLongest.
Proof. intros H. destruct (H [] None) as (tokens & Ht). discriminate Ht. Qed.

Lemma toy_newmm_falls_back : newmm_falls_back_to_default Toy.engines Toy.corpus.
Proof. intros text. reflexivity. Qed.

Lemma tokens_reconstruct_input_witness :
  module_reconstructs toy_newmm_only (engine_module_of (str "nonexistent_name"))
  /\ module_returns toy_newmm_only (engine_module_of (str "nonexistent_name"))
  /\ (exists tokens,
         word_tokenize toy_newmm_only Toy.corpus
           (PyStr (Toy.rotfai ++ [SPACE] ++ Toy.rot)) None
           (str "nonexistent_name") true
         = MkM [] (Return tokens)
         /\ join tokens = Toy.rotfai ++ [SPACE] ++ Toy.rot)
  /\ exists tokens,
      outcome (syllable_tokenize toy_newmm_only Toy.corpus Toy.read_file
                 (PyStr (Toy.rotfai ++ [SPACE] ++ Toy.rot))) = Return tokens
      /\ join tokens = Toy.rotfai ++ [SPACE] ++ Toy.rot.
Proof.
  pose proof (tokens_reconstruct_input toy_newmm_only Toy.corpus Toy.read_file
                (Toy.rotfai ++ [SPACE] ++ Toy.rot)) as [Hword Hsyl].
  split; [exact (toy_newmm_only_reconstructs ModNewmm)|].
  split; [exact toy_newmm_only_returns|].
  split.
  - apply (Hword None (str "nonexistent_name")
             (toy_newmm_only_reconstructs ModNewmm)).
    exact toy_newmm_only_returns.
  - apply (Hsyl (toy_newmm_only_reconstructs ModNewmm)).
    exact toy_newmm_only_returns.
Defined.

(** The sample world run on a two-word text: words first, syllables after. *)
Example toy_word_tokenize :
  word_tokenize Toy.engines Toy.corpus
    (PyStr (Toy.rotfai ++ [SPACE] ++ Toy.rot)) None (str "newmm") true
  = MkM [] (Return [Toy.rotfai; [SPACE]; Toy.rot]).
Proof. reflexivity. Qed.

Example toy_syllable_tokenize :
  syllable_tokenize Toy.engines Toy.corpus Toy.read_file
    (PyStr (Toy.rotfai ++ [SPACE] ++ Toy.rot))
  = MkM [EvDictTrie (PyStrs [Toy.rot; Toy.fai])]
      (Return [Toy.rot; Toy.fai; [SPACE]; Toy.rot]).
Proof. vm_compute. reflexivity. Qed.

(** ** Sentence splitting on spaces (C3) *)

(** Inside a run that already produced a split the remaining spaces of the
    run are skipped, whatever the budget. *)
Lemma re_split_spaces_go_in_run (budget : option nat) (s : pystr) :
  re_split_spaces_go budget true [] s
  = re_split_spaces_go budget false [] (lstrip_space s).
Proof.
  induction s as [|c s IH]; [reflexivity|].
  cbn [re_split_spaces_go lstrip_space].
  destruct (N.eqb c SPACE) eqn:Hc; [exact IH|].
  cbn [re_split_spaces_go]. rewrite Hc. reflexivity.
Qed.

Lemma no_space_rev (p : pystr) : no_space p -> no_space (rev p).
Proof.
  unfold no_space. rewrite !Forall_forall. intros H c Hc.
  apply H. apply list_elem_of_In, in_rev, list_elem_of_In. exact Hc.
Qed.

(** Without a limit, the scan splits at every maximal run of spaces. *)
Lemma re_split_spaces_go_unlimited (s : pystr) :
  (forall cur, no_space cur ->
     split_at_space_runs (rev cur ++ s) (re_split_spaces_go None false cur s))
  /\ split_at_space_runs (lstrip_space s) (re_split_spaces_go None true [] s).
Proof.
  induction s as [|c s [IHcur IHrun]]; split.
  - intros cur Hcur. rewrite app_nil_r. apply sr_last, no_space_rev, Hcur.
  - apply sr_last. constructor.
  - intros cur Hcur. cbn [re_split_spaces_go].
    destruct (N.eqb_spec c SPACE) as [->|Hc].
    + destruct (lstrip_space_split s) as (l & Hl & Hs).
      replace (rev cur ++ SPACE :: s)
        with (rev cur ++ (SPACE :: l) ++ lstrip_space s)
        by (cbn [app]; rewrite <- Hs; reflexivity).
      apply sr_run.
      * apply no_space_rev, Hcur.
      * discriminate.
      * constructor; [reflexivity | exact Hl].
      * apply lstrip_space_head.
      * exact IHrun.
    + replace (rev cur ++ c :: s) with (rev (c :: cur) ++ s)
        by (cbn [rev]; rewrite <- app_assoc; reflexivity).
      apply IHcur. constructor; assumption.
  - cbn [re_split_spaces_go lstrip_space].
    destruct (N.eqb_spec c SPACE) as [->|Hc]; [exact IHrun|].
    apply (IHcur [c]). constructor; [exact Hc | constructor].
Qed.

(** A limit that is at least the number of runs changes nothing. *)
Lemma re_split_spaces_go_budget (s : pystr) :
  forall k in_run cur,
    (space_runs in_run s <= k)%nat ->
    re_split_spaces_go (Some k) in_run cur s
    = re_split_spaces_go None in_run cur s.
Proof.
  induction s as [|c s IH]; intros k in_run cur Hk; [reflexivity|].
  cbn [re_split_spaces_go space_runs] in *.
  destruct (N.eqb c SPACE); [|apply IH; exact Hk].
  destruct in_run; [apply IH; exact Hk|].
  destruct k as [|k]; [simpl in Hk; lia|].
  f_equal. apply IH. simpl in Hk. lia.
Qed.

(** The pieces of a split at every run hold no space. *)
Lemma split_at_space_runs_pieces (s : pystr) (pieces : list pystr) :
  split_at_space_runs s pieces -> Forall no_space pieces.
Proof. induction 1; constructor; auto. Qed.

(** X3.  What the [whitespace] engine does get right: a non-empty text with
    at most 32 runs of spaces is split at every one of them. *)
Lemma sent_tokenize_whitespace_upto_32_runs (s : pystr) :
  str_truthy s = true ->
  (space_runs false s <= 32)%nat ->
  exists pieces,
    sent_tokenize (PyStr s) (str "whitespace") = MkM [] (Return pieces)
    /\ split_at_space_runs s pieces.
Proof.
  intros Hne Hruns. unfold sent_tokenize.
  rewrite guard_text, Hne. cbn [negb str_of_val].
  rewrite str_eqb_refl.
  eexists; split; [reflexivity|].
  unfold re_split_spaces, re_U.
  rewrite re_split_spaces_go_budget by exact Hruns.
  apply (proj1 (re_split_spaces_go_unlimited s) []). constructor.
Qed.

Example sent_tokenize_whitespace_example :
  sent_tokenize (PyStr (str "a b" ++ [NEWLINE] ++ str "c")) (str "whitespace")
  = MkM [] (Return [str "a"; str "b" ++ [NEWLINE] ++ str "c"]).
Proof. reflexivity. Qed.

Example sent_tokenize_default_example :
  sent_tokenize (PyStr (str "a b" ++ [NEWLINE] ++ str "c"))
    (str "whitespace+newline")
  = MkM [] (Return [str "a"; str "b"; str "c"]).
Proof. reflexivity. Qed.

(** C3.  [sent_tokenize(text, engine="whitespace")] does not split at every
    run of spaces: [re.U] sits in the [maxsplit] position of [re.split], so
    splitting stops after 32 runs.  On 34 words separated by 33 single
    spaces it returns 33 segments, the last being ["a a"], which still
    holds a space and so is not a split at every run; the 34 one-letter
    segments are. *)
Theorem sent_tokenize_whitespace_stops_after_32_splits :
  sent_tokenize (PyStr (spaced_words 33)) (str "whitespace")
  = MkM [] (Return (repeat (str "a") 32 ++ [str "a a"]))
  /\ ~ split_at_space_runs (spaced_words 33) (repeat (str "a") 32 ++ [str "a a"])
  /\ split_at_space_runs (spaced_words 33) (repeat (str "a") 34).
Proof.
  split; [reflexivity | split].
  - intros H. apply split_at_space_runs_pieces in H.
    apply Forall_app in H. destruct H as [_ H].
    apply Forall_inv in H. unfold no_space in H.
    apply Forall_inv_tail, Forall_inv in H. apply H. reflexivity.
  - change (repeat (str "a") 34)
      with (re_split_spaces_go None false [] (spaced_words 33)).
    apply (proj1 (re_split_spaces_go_unlimited (spaced_words 33)) []).
    constructor.
Qed.

(** ** The dictionary builder (C7) *)

Lemma is_prefix_spec (p s : pystr) :
  is_prefix p s = true <-> exists r, s = p ++ r.
Proof.
  revert s; induction p as [|x p IH]; intros s; cbn [is_prefix].
  - split; [intros _; exists s; reflexivity | reflexivity].
  - destruct s as [|y s].
    + split; [discriminate | intros [r Hr]; discriminate Hr].
    + rewrite andb_true_iff, N.eqb_eq, IH. split.
      * intros [-> [r ->]]. exists r. reflexivity.
      * intros [r [= -> ->]]. split; [reflexivity | exists r; reflexivity].
Qed.

(** [mentions] decides occurrence as a contiguous substring. *)
Lemma mentions_spec (msg name : pystr) :
  mentions msg name = true <-> exists l r, msg = l ++ name ++ r.
Proof.
  induction msg as [|c msg IH]; cbn [mentions];
    rewrite orb_true_iff, is_prefix_spec.
  - split.
    + intros [[r Hr]|H]; [exists [], r; exact Hr | discriminate].
    + intros (l & r & H). left.
      destruct l; [exists r; exact H | discriminate].
  - rewrite IH. split.
    + intros [[r Hr]|(l & r & Hr)].
      * exists [], r. exact Hr.
      * exists (c :: l), r. rewrite Hr. reflexivity.
    + intros (l & r & H). destruct l as [|x l].
      * left. exists r. exact H.
      * right. injection H as _ H. exists l, r. exact H.
Qed.

(** What the builder does on a source it does not support. *)
Lemma dict_trie_unsupported read_file (v : pyval) :
  unsupported_source v = true ->
  dict_trie read_file v
  = MkM [EvDictTrie v] (Raise (TypeError dict_source_error)).
Proof. destruct v; try discriminate; reflexivity. Qed.

(** C7, as the specification states it, fails on the number 5: the builder
    raises, but the message of the error does not name the type [int]. *)
Lemma dict_trie_message_does_not_name_int :
  ~ exists msg,
      outcome (dict_trie Toy.read_file (PyInt 5)) = Raise (TypeError msg)
      /\ mentions msg (type_name (PyInt 5)) = true.
Proof.
  intros (msg & Hout & Hm).
  rewrite (dict_trie_unsupported Toy.read_file (PyInt 5) eq_refl) in Hout.
  injection Hout as <-. vm_compute in Hm. discriminate Hm.
Qed.

(** An iterable is never turned down by the builder, whatever its
    elements: the test at the third branch does not look at them, and the
    source goes to the trie constructor.  A list of integers fails there,
    with the error of the constructor. *)
Lemma dict_trie_iterable_of_non_strings read_file (ints : list Z) :
  dict_trie read_file (PyInts ints)
  = MkM [EvDictTrie (PyInts ints)] (Trie_of (PyInts ints))
  /\ outcome (dict_trie read_file (PyInts ints))
     <> Raise (TypeError dict_source_error).
Proof.
  split; [reflexivity|].
  destruct ints as [|z ints]; discriminate.
Qed.

Example dict_trie_list_of_integers :
  dict_trie Toy.read_file (PyInts [1; 2]%Z)
  = MkM [EvDictTrie (PyInts [1; 2]%Z)] (Raise (TrieKeyError (PyInt 1))).
Proof. reflexivity. Qed.

(** C7, amended.  For every source that is neither a trie, nor a string,
    nor an iterable ([None], a boolean, a number), [dict_trie] raises the
    unsupported-source error, a [TypeError], and returns no trie; the
    message is one fixed text that lists the accepted types, the same for
    every such source, and it does not name the type of the value
    received.  An iterable whose elements are not strings is not such a
    source: the builder does not raise this error on it. *)
Theorem dict_trie_rejects_unsupported_source
    (read_file : pystr -> result pystr) (dict_source : pyval)
    (Hsrc : unsupported_source dict_source = true) :
  dict_trie read_file dict_source
  = MkM [EvDictTrie dict_source] (Raise (TypeError dict_source_error))
  /\ mentions dict_source_error (type_name dict_source) = false
  /\ mentions dict_source_error (str "marisa_trie.Trie") = true
  /\ mentions dict_source_error (str "Iterable[str]") = true
  /\ mentions dict_source_error (str "str (path to source file)") = true
  /\ forall ints,
      outcome (dict_trie read_file (PyInts ints))
      <> Raise (TypeError dict_source_error).
Proof.
  split; [apply dict_trie_unsupported; exact Hsrc|].
  split; [destruct dict_source; try discriminate Hsrc; vm_compute; reflexivity|].
  repeat split; try (vm_compute; reflexivity).
  intros ints. apply dict_trie_iterable_of_non_strings.
Qed.

Lemma dict_trie_rejects_number_witness :
  unsupported_source (PyInt 5) = true
  /\ dict_trie Toy.read_file (PyInt 5)
     = MkM [EvDictTrie (PyInt 5)] (Raise (TypeError dict_source_error))
  /\ mentions dict_source_error (type_name (PyInt 5)) = false
  /\ mentions dict_source_error (str "marisa_trie.Trie") = true
  /\ mentions dict_source_error (str "Iterable[str]") = true
  /\ mentions dict_source_error (str "str (path to source file)") = true
  /\ forall ints,
      outcome (dict_trie Toy.read_file (PyInts ints))
      <> Raise (TypeError dict_source_error).
Proof.
  split; [reflexivity|].
  apply (dict_trie_rejects_unsupported_source Toy.read_file (PyInt 5)).
  reflexivity.
Defined.

(** The supported sources, on the sample file system. *)
Example dict_trie_from_trie :
  outcome (dict_trie Toy.read_file (PyTrie (Trie_new [Toy.rot])))
  = Return (Trie_new [Toy.rot]).
Proof. reflexivity. Qed.

Example dict_trie_from_path :
  outcome (dict_trie Toy.read_file (PyStr Toy.words_txt))
  = Return (Trie_new [Toy.rotfai; Toy.rot]).
Proof. reflexivity. Qed.

Example dict_trie_from_missing_path :
  outcome (dict_trie Toy.read_file (PyStr (str "missing.txt")))
  = Raise (OSError (str "missing.txt")).
Proof. reflexivity. Qed.

(** ** The [Tokenizer] class (C9) *)

Lemma M_bind_ext_outcome {A B} (m : M A) (f g : A -> M B) :
  (forall a, outcome m = Return a -> f a = g a) -> m ≫= f = m ≫= g.
Proof.
  intros H. destruct m as [t [a|e]]; unfold mbind, M_mbind, M_bind; simpl;
    [rewrite (H a eq_refl)|]; reflexivity.
Qed.

(** The builder records exactly its own call. *)
Lemma dict_trie_trace read_file (src : pyval) :
  trace (dict_trie read_file src) = [EvDictTrie src].
Proof.
  unfold dict_trie.
  destruct (isinstance_Trie src); [reflexivity|].
  destruct (isinstance_str src).
  - destruct (read_file (str_of_val src)); reflexivity.
  - destruct (isinstance_Iterable src); reflexivity.
Qed.

Lemma Tokenizer_init_trace C read_file custom_dict engine :
  trace (Tokenizer_init C read_file custom_dict engine)
  = if truthy custom_dict then [EvDictTrie custom_dict] else [].
Proof.
  unfold Tokenizer_init. destruct (truthy custom_dict); [|reflexivity].
  pose proof (dict_trie_trace read_file custom_dict) as Ht.
  destruct (dict_trie read_file custom_dict) as [t [trie|e]];
    unfold mbind, M_mbind, M_bind; simpl in *; rewrite Ht; reflexivity.
Qed.

Lemma Tokenizer_init_outcome C read_file custom_dict engine :
  outcome (Tokenizer_init C read_file custom_dict engine)
  = if truthy custom_dict
    then result_map (fun t => MkTokenizer t engine)
           (outcome (dict_trie read_file custom_dict))
    else Return (MkTokenizer (DEFAULT_DICT_TRIE C) engine).
Proof.
  unfold Tokenizer_init. destruct (truthy custom_dict); [|reflexivity].
  destruct (dict_trie read_file custom_dict) as [t [trie|e]]; reflexivity.
Qed.

Lemma do_call_trace E C self c : trace (do_call E C self c) = [].
Proof.
  destruct c as [text|engine]; [|reflexivity].
  unfold do_call, Tokenizer_word_tokenize.
  pose proof (word_tokenize_trace E C text (Some (trie_dict self))
                (tok_engine self) default_keep_whitespace) as Ht.
  destruct (word_tokenize E C text (Some (trie_dict self)) (tok_engine self)
              default_keep_whitespace) as [t [r|e]];
    simpl in Ht; subst t; reflexivity.
Qed.

(** A method call never touches the bound trie; the engine name changes
    only through [set_tokenize_engine]. *)
Lemma do_call_frame E C self c r self' :
  outcome (do_call E C self c) = Return (r, self') ->
  trie_dict self' = trie_dict self
  /\ tok_engine self' = engine_after (tok_engine self) [c].
Proof.
  destruct c as [text|engine]; cbn [do_call engine_after].
  - unfold Tokenizer_word_tokenize.
    destruct (word_tokenize E C text (Some (trie_dict self)) (tok_engine self)
                default_keep_whitespace) as [t [r0|e]];
      unfold mbind, M_mbind, M_bind; simpl; [|discriminate].
    intros [= _ <-]. split; reflexivity.
  - simpl. intros [= _ <-]. split; reflexivity.
Qed.

Lemma run_calls_trace E C (cs : list method_call) :
  forall self, trace (run_calls E C self cs) = [].
Proof.
  induction cs as [|c cs IH]; intros self; [reflexivity|].
  cbn [run_calls].
  pose proof (do_call_trace E C self c) as Hc.
  destruct (do_call E C self c) as [t [[r self']|e]]; simpl in Hc; subst t;
    [|reflexivity].
  rewrite M_bind_returned.
  pose proof (IH self') as Hr.
  destruct (run_calls E C self' cs) as [t [[rs self'']|e]]; simpl in Hr; subst t;
    reflexivity.
Qed.

Lemma run_calls_frame E C (cs : list method_call) :
  forall self rs self',
    outcome (run_calls E C self cs) = Return (rs, self') ->
    trie_dict self' = trie_dict self
    /\ tok_engine self' = engine_after (tok_engine self) cs
    /\ length rs = length cs.
Proof.
  induction cs as [|c cs IH]; intros self rs self'.
  - simpl. intros [= <- <-]. repeat split.
  - cbn [run_calls].
    pose proof (do_call_trace E C self c) as Hc.
    pose proof (do_call_frame E C self c) as Hf.
    destruct (do_call E C self c) as [t [[r self1]|e]]; simpl in Hc; subst t;
      [|discriminate].
    rewrite M_bind_returned.
    specialize (Hf r self1 eq_refl). destruct Hf as [Hf1 Hf2].
    pose proof (IH self1) as Hr.
    destruct (run_calls E C self1 cs) as [t [[rs1 self2]|e]];
      [|discriminate].
    unfold mbind, M_mbind, M_bind. simpl. intros [= <- <-].
    destruct (Hr rs1 self2 eq_refl) as (H1 & H2 & H3).
    repeat split.
    + congruence.
    + rewrite H2, Hf2. destruct c; reflexivity.
    + simpl. congruence.
Qed.

Lemma run_calls_app E C (cs1 cs2 : list method_call) :
  forall self,
    run_calls E C self (cs1 ++ cs2)
    = '(rs1, self1) ← run_calls E C self cs1;
      '(rs2, self2) ← run_calls E C self1 cs2;
      mret (rs1 ++ rs2, self2).
Proof.
  induction cs1 as [|c cs1 IH]; intros self.
  - cbn [app run_calls]. rewrite M_bind_ret_l.
    rewrite <- (M_bind_ret_r (run_calls E C self cs2)) at 1.
    apply M_bind_ext. intros [rs2 self2]. reflexivity.
  - cbn [app run_calls]. rewrite !M_bind_assoc.
    apply M_bind_ext. intros [r self1].
    rewrite IH, !M_bind_assoc.
    apply M_bind_ext. intros [rs1 self2].
    rewrite M_bind_ret_l, M_bind_assoc.
    apply M_bind_ext. intros [rs2 self3].
    rewrite M_bind_ret_l. reflexivity.
Qed.

Example Tokenizer_init_empty_list :
  Tokenizer_init Toy.corpus Toy.read_file (PyStrs []) (str "newmm")
  = MkM [] (Return (MkTokenizer (DEFAULT_DICT_TRIE Toy.corpus) (str "newmm"))).
Proof. reflexivity. Qed.

Example Tokenizer_init_spec_empty_list :
  Tokenizer_init_spec Toy.corpus Toy.read_file (PyStrs []) (str "newmm")
  = MkM [EvDictTrie (PyStrs [])]
      (Return (MkTokenizer (Trie_new []) (str "newmm"))).
Proof. reflexivity. Qed.

(** C9, as the specification states it, fails on [Tokenizer(custom_dict=[])]:
    an argument is given, yet it does not go through the dictionary
    builder; the instance is bound to the default trie and the builder is
    not called. *)
Lemma Tokenizer_given_empty_list_skips_builder :
  Tokenizer_init Toy.corpus Toy.read_file (PyStrs []) (str "newmm")
  <> Tokenizer_init_spec Toy.corpus Toy.read_file (PyStrs []) (str "newmm").
Proof.
  intros H. apply (f_equal (fun m => builder_calls (trace m))) in H.
  vm_compute in H. discriminate H.
Qed.

(** C9, amended.  A [Tokenizer] resolves its dictionary at construction and
    only there: a truthy argument goes through the dictionary builder, once,
    and the instance is bound to the trie it returns (its error, if any, is
    the error of the construction); with [None] or any other falsy argument
    (an empty list, an empty string, an empty trie, 0) the builder is not
    called and the default trie is bound.  Afterwards [word_tokenize(text)]
    is [word_tokenize(text, custom_dict=bound trie, engine=current engine)],
    [set_tokenize_engine] changes the engine name and nothing else, and in
    every run of method calls the builder is never called, the trie stays
    the one bound at construction, each [word_tokenize] call uses it with
    the engine name set last, and a repeated call returns the same result. *)
Theorem tokenizer_binds_its_dictionary_at_construction
    (E : Engines) (C : Corpus) (read_file : pystr -> result pystr) :
  (forall custom_dict engine,
      builder_calls (trace (Tokenizer_init C read_file custom_dict engine))
      = (if truthy custom_dict then 1 else 0)%nat
      /\ outcome (Tokenizer_init C read_file custom_dict engine)
         = if truthy custom_dict
           then result_map (fun t => MkTokenizer t engine)
                  (outcome (dict_trie read_file custom_dict))
           else Return (MkTokenizer (DEFAULT_DICT_TRIE C) engine))
  /\ (forall self text,
         Tokenizer_word_tokenize E C self text
         = word_tokenize E C text (Some (trie_dict self)) (tok_engine self) true)
  /\ (forall self engine,
         trie_dict (Tokenizer_set_tokenize_engine self engine) = trie_dict self
         /\ tok_engine (Tokenizer_set_tokenize_engine self engine) = engine)
  /\ (forall self cs,
         builder_calls (trace (run_calls E C self cs)) = 0%nat
         /\ match outcome (run_calls E C self cs) with
            | Return (rs, self') =>
                trie_dict self' = trie_dict self
                /\ tok_engine self' = engine_after (tok_engine self) cs
            | Raise _ => True
            end)
  /\ (forall self before text,
         run_calls E C self (before ++ [CallWordTokenize text])
         = '(rs, self') ← run_calls E C self before;
           r ← word_tokenize E C text (Some (trie_dict self))
                 (engine_after (tok_engine self) before) true;
           mret (rs ++ [r], self'))
  /\ (forall self text,
         run_calls E C self [CallWordTokenize text; CallWordTokenize text]
         = r ← Tokenizer_word_tokenize E C self text; mret ([r; r], self)).
Proof.
  split; [|split; [|split; [|split; [|split]]]].
  - intros custom_dict engine. split; [|apply Tokenizer_init_outcome].
    rewrite Tokenizer_init_trace. destruct (truthy custom_dict); reflexivity.
  - reflexivity.
  - intros self engine. split; reflexivity.
  - intros self cs. rewrite run_calls_trace. split; [reflexivity|].
    pose proof (run_calls_frame E C cs self) as Hf.
    destruct (outcome (run_calls E C self cs)) as [[rs self']|e]; [|exact I].
    destruct (Hf rs self' eq_refl) as (H1 & H2 & _). split; assumption.
  - intros self before text. rewrite run_calls_app.
    apply M_bind_ext_outcome. intros [rs self'] Hrun.
    destruct (run_calls_frame E C before self rs self' Hrun) as (H1 & H2 & _).
    cbn [run_calls do_call]. unfold Tokenizer_word_tokenize.
    rewrite H1, H2. unfold default_keep_whitespace.
    rewrite !M_bind_assoc. apply M_bind_ext. intros r.
    rewrite !M_bind_ret_l. reflexivity.
  - intros self text. cbn [run_calls do_call].
    pose proof (word_tokenize_trace E C text (Some (trie_dict self))
                  (tok_engine self) default_keep_whitespace) as Ht.
    unfold Tokenizer_word_tokenize.
    destruct (word_tokenize E C text (Some (trie_dict self)) (tok_engine self)
                default_keep_whitespace) as [t [r|e]] eqn:Hw;
      simpl in Ht; subst t; [|reflexivity].
    rewrite M_bind_returned, M_bind_ret_l. cbn [trie_dict tok_engine].
    rewrite Hw. reflexivity.
Qed.

(** A facade built from a custom list, used, switched to another engine and
    used again: one builder call, at construction. *)
Example Tokenizer_session :
  (self ← Tokenizer_init Toy.corpus Toy.read_file (PyStrs [Toy.rot])
            (str "newmm");
   run_calls Toy.engines Toy.corpus self
     [CallWordTokenize (PyStr Toy.rotfai); CallSetEngine (str "icu");
      CallWordTokenize (PyStr Toy.rotfai)])
  = MkM [EvDictTrie (PyStrs [Toy.rot])]
      (Return ([[Toy.rot; [Toy.SARA_AI]; [Toy.FO_FAN]]; [];
                [[Toy.RO_RUA]; [Toy.THO_THUNG]; [Toy.SARA_AI]; [Toy.FO_FAN]]],
               MkTokenizer (Trie_new [Toy.rot]) (str "icu"))).
Proof. vm_compute. reflexivity. Qed.

(** ** Further properties of the module *)

(** *** Sentence splitting *)

Lemma rev_cons_not_nil {A} (x : A) (l : list A) : rev (x :: l) <> [].
Proof. cbn [rev]. destruct (rev l); discriminate. Qed.

Lemma no_whitespace_rev (p : pystr) : no_whitespace p -> no_whitespace (rev p).
Proof.
  unfold no_whitespace. rewrite !Forall_forall. intros H c Hc.
  apply H. apply list_elem_of_In, in_rev, list_elem_of_In. exact Hc.
Qed.

Lemma remove_whitespace_app (a b : pystr) :
  remove_whitespace (a ++ b) = remove_whitespace a ++ remove_whitespace b.
Proof. apply List.filter_app. Qed.

Lemma remove_whitespace_cons (c : N) (s : pystr) :
  remove_whitespace (c :: s)
  = if py_isspace c then remove_whitespace s else c :: remove_whitespace s.
Proof.
  unfold remove_whitespace. cbn [List.filter].
  destruct (py_isspace c); reflexivity.
Qed.

Lemma remove_whitespace_id (p : pystr) :
  no_whitespace p -> remove_whitespace p = p.
Proof.
  induction 1 as [|c p Hc _ IH]; [reflexivity|].
  unfold remove_whitespace in *. cbn [List.filter]. rewrite Hc, IH. reflexivity.
Qed.

(** The scan behind [text.split()]: every piece is a non-empty run without
    whitespace, and the pieces together are the text without its
    whitespace. *)
Lemma split_whitespace_go_spec (s : pystr) :
  forall cur, no_whitespace cur ->
    Forall (fun p => p <> [] /\ no_whitespace p) (split_whitespace_go cur s)
    /\ concat (split_whitespace_go cur s) = rev cur ++ remove_whitespace s.
Proof.
  induction s as [|c s IH]; intros cur Hcur.
  - destruct cur as [|x cur]; cbn [split_whitespace_go].
    + split; [constructor | reflexivity].
    + split.
      * constructor; [|constructor]. split;
          [apply rev_cons_not_nil | apply no_whitespace_rev, Hcur].
      * cbn [concat remove_whitespace List.filter]. reflexivity.
  - cbn [split_whitespace_go]. rewrite remove_whitespace_cons.
    destruct (py_isspace c) eqn:Hc.
    + destruct (IH []) as [IH1 IH2]; [constructor|].
      destruct cur as [|x cur]; [split; assumption|].
      split.
      * constructor; [|exact IH1]. split;
          [apply rev_cons_not_nil | apply no_whitespace_rev, Hcur].
      * cbn [concat]. rewrite IH2. reflexivity.
    + destruct (IH (c :: cur)) as [IH1 IH2];
        [constructor; assumption|].
      split; [exact IH1|]. rewrite IH2. cbn [rev].
      rewrite <- app_assoc. reflexivity.
Qed.



(** X2.  With any engine name other than ["whitespace"], the segments of a
    string, put together, are the string without its whitespace: no other
    character is lost, added or moved. *)
Theorem sent_tokenize_default_keeps_content
    (s : pystr) (engine : pystr)
    (Hengine : str_eqb engine (str "whitespace") = false) :
  exists segments,
    sent_tokenize (PyStr s) engine = MkM [] (Return segments)
    /\ concat segments = remove_whitespace s.
Proof.
  unfold sent_tokenize. rewrite guard_text.
  destruct s as [|c s]; [exists []; split; reflexivity|].
  cbn [str_truthy negb str_of_val]. rewrite Hengine.
  eexists. split; [reflexivity|].
  apply (split_whitespace_go_spec (c :: s) []). constructor.
Qed.

Lemma sent_tokenize_default_keeps_content_witness :
  str_eqb (str "whitespace+newline") (str "whitespace") = false
  /\ exists segments,
      sent_tokenize (PyStr (str " a  b" ++ [NEWLINE; TAB] ++ str "c "))
        (str "whitespace+newline") = MkM [] (Return segments)
      /\ concat segments
         = remove_whitespace (str " a  b" ++ [NEWLINE; TAB] ++ str "c ").
Proof.
  split; [reflexivity|].
  apply (sent_tokenize_default_keeps_content
           (str " a  b" ++ [NEWLINE; TAB] ++ str "c ")
           (str "whitespace+newline")).
  reflexivity.
Defined.

Lemma sent_tokenize_whitespace_upto_32_runs_witness :
  str_truthy (str "a b" ++ [NEWLINE] ++ str "c") = true
  /\ (space_runs false (str "a b" ++ [NEWLINE] ++ str "c") <= 32)%nat
  /\ exists pieces,
      sent_tokenize (PyStr (str "a b" ++ [NEWLINE] ++ str "c"))
        (str "whitespace") = MkM [] (Return pieces)
      /\ split_at_space_runs (str "a b" ++ [NEWLINE] ++ str "c") pieces.
Proof.
  split; [reflexivity|]. split; [vm_compute; lia|].
  apply (sent_tokenize_whitespace_upto_32_runs
           (str "a b" ++ [NEWLINE] ++ str "c")).
  - reflexivity.
  - vm_compute; lia.
Defined.

Lemma re_split_spaces_go_not_nil budget in_run cur (s : pystr) :
  re_split_spaces_go budget in_run cur s <> [].
Proof.
  revert budget in_run cur; induction s as [|c s IH]; intros budget in_run cur;
    cbn [re_split_spaces_go]; [discriminate|].
  destruct (N.eqb c SPACE); [|apply IH].
  destruct in_run; [apply IH|].
  destruct budget as [[|k]|]; discriminate.
Qed.

(** A limit of [k] splits gives at most [k + 1] pieces. *)
Lemma re_split_spaces_go_length (s : pystr) :
  forall k in_run cur,
    (length (re_split_spaces_go (Some k) in_run cur s) <= S k)%nat.
Proof.
  induction s as [|c s IH]; intros k in_run cur; cbn [re_split_spaces_go].
  - simpl. lia.
  - destruct (N.eqb c SPACE); [|apply IH].
    destruct in_run; [apply IH|].
    destruct k as [|k]; [simpl; lia|].
    cbn [length]. specialize (IH k true []). lia.
Qed.

(** Every piece before the last is free of spaces. *)
Lemma re_split_spaces_go_init (s : pystr) :
  forall budget in_run cur,
    no_space cur ->
    Forall no_space (removelast (re_split_spaces_go budget in_run cur s)).
Proof.
  induction s as [|c s IH]; intros budget in_run cur Hcur;
    cbn [re_split_spaces_go]; [constructor|].
  destruct (N.eqb_spec c SPACE) as [->|Hc].
  - destruct in_run; [apply IH; exact Hcur|].
    assert (Hstep : forall b,
               Forall no_space
                 (removelast (rev cur :: re_split_spaces_go b true [] s))).
    { intros b. pose proof (re_split_spaces_go_not_nil b true [] s) as Hne.
      pose proof (IH b true [] (Forall_nil_2 _)) as Hrest.
      cbn [removelast].
      destruct (re_split_spaces_go b true [] s); [contradiction|].
      constructor; [apply no_space_rev, Hcur | exact Hrest]. }
    destruct budget as [[|k]|]; [constructor | apply Hstep | apply Hstep].
  - apply IH. constructor; assumption.
Qed.

Lemma remove_spaces_app (a b : pystr) :
  remove_spaces (a ++ b) = remove_spaces a ++ remove_spaces b.
Proof. apply List.filter_app. Qed.

Lemma remove_spaces_cons (c : N) (s : pystr) :
  remove_spaces (c :: s)
  = if N.eqb c SPACE then remove_spaces s else c :: remove_spaces s.
Proof.
  unfold remove_spaces. cbn [List.filter].
  destruct (N.eqb c SPACE); reflexivity.
Qed.

(** Whatever the limit, the pieces hold the characters of the text other
    than spaces, in order. *)
Lemma re_split_spaces_go_content (s : pystr) :
  forall budget in_run cur,
    remove_spaces (concat (re_split_spaces_go budget in_run cur s))
    = remove_spaces (rev cur ++ s).
Proof.
  induction s as [|c s IH]; intros budget in_run cur;
    cbn [re_split_spaces_go].
  - cbn [concat]. reflexivity.
  - destruct (N.eqb c SPACE) eqn:Hc.
    + assert (Hskip : remove_spaces (rev cur ++ c :: s)
                      = remove_spaces (rev cur ++ s)).
      { rewrite !remove_spaces_app, remove_spaces_cons, Hc. reflexivity. }
      assert (Hstep : forall b,
                 remove_spaces
                   (concat (rev cur :: re_split_spaces_go b true [] s))
                 = remove_spaces (rev cur ++ c :: s)).
      { intros b. cbn [concat]. rewrite remove_spaces_app, IH, Hskip.
        cbn [rev app]. rewrite remove_spaces_app. reflexivity. }
      destruct in_run; [rewrite IH; symmetry; exact Hskip|].
      destruct budget as [[|k]|]; [|apply Hstep|apply Hstep].
      cbn [concat]. rewrite app_nil_r. reflexivity.
    + rewrite IH. cbn [rev]. rewrite <- app_assoc. reflexivity.
Qed.

(** X4.  With [engine="whitespace"] a non-empty string gives at least one
    and at most 33 segments, and only the last of them can hold an ASCII
    space: every segment before it is free of spaces. *)
Theorem sent_tokenize_whitespace_at_most_33_segments
    (s : pystr) (Hne : str_truthy s = true) :
  exists pieces,
    sent_tokenize (PyStr s) (str "whitespace") = MkM [] (Return pieces)
    /\ (1 <= length pieces <= 33)%nat
    /\ Forall no_space (removelast pieces).
Proof.
  unfold sent_tokenize. rewrite guard_text, Hne.
  cbn [negb str_of_val]. rewrite str_eqb_refl.
  eexists. split; [reflexivity|]. unfold re_split_spaces, re_U. split.
  - split; [|apply re_split_spaces_go_length].
    pose proof (re_split_spaces_go_not_nil (Some 32%nat) false [] s) as Hn.
    destruct (re_split_spaces_go (Some 32%nat) false [] s);
      [contradiction | simpl; lia].
  - apply re_split_spaces_go_init. constructor.
Qed.

Lemma sent_tokenize_whitespace_at_most_33_witness :
  str_truthy (spaced_words 40) = true
  /\ exists pieces,
      sent_tokenize (PyStr (spaced_words 40)) (str "whitespace")
      = MkM [] (Return pieces)
      /\ (1 <= length pieces <= 33)%nat
      /\ Forall no_space (removelast pieces).
Proof.
  split; [reflexivity|].
  apply (sent_tokenize_whitespace_at_most_33_segments (spaced_words 40)).
  reflexivity.
Defined.

(** X5.  With [engine="whitespace"] the segments of a string, put together,
    hold exactly the characters of the string other than ASCII spaces, in
    order, however many runs of spaces it has: tabs and newlines stay. *)
Theorem sent_tokenize_whitespace_keeps_content (s : pystr) :
  exists pieces,
    sent_tokenize (PyStr s) (str "whitespace") = MkM [] (Return pieces)
    /\ remove_spaces (concat pieces) = remove_spaces s.
Proof.
  unfold sent_tokenize. rewrite guard_text.
  destruct s as [|c s]; [exists []; split; reflexivity|].
  cbn [str_truthy negb str_of_val]. rewrite str_eqb_refl.
  eexists. split; [reflexivity|].
  unfold re_split_spaces, re_U.
  apply (re_split_spaces_go_content (c :: s) (Some 32%nat) false []).
Qed.

Lemma split_whitespace_go_no_whitespace (s : pystr) :
  forall cur,
    no_whitespace s -> rev cur ++ s <> [] ->
    split_whitespace_go cur s = [rev cur ++ s].
Proof.
  induction s as [|c s IH]; intros cur Hs Hne; cbn [split_whitespace_go].
  - rewrite app_nil_r in *. destruct cur; [contradiction | reflexivity].
  - apply Forall_cons in Hs as [Hc Hs]. rewrite Hc.
    rewrite IH; [|exact Hs|].
    + cbn [rev]. rewrite <- app_assoc. reflexivity.
    + cbn [rev]. rewrite <- app_assoc. destruct (rev cur); discriminate.
Qed.

Lemma re_split_spaces_go_no_space (s : pystr) :
  forall budget cur,
    no_space s ->
    re_split_spaces_go budget false cur s = [rev cur ++ s].
Proof.
  induction s as [|c s IH]; intros budget cur Hs; cbn [re_split_spaces_go].
  - rewrite app_nil_r. reflexivity.
  - apply Forall_cons in Hs as [Hc Hs].
    destruct (N.eqb_spec c SPACE) as [->|_]; [contradiction|].
    rewrite IH by exact Hs. cbn [rev]. rewrite <- app_assoc. reflexivity.
Qed.

Lemma no_whitespace_no_space (s : pystr) : no_whitespace s -> no_space s.
Proof.
  unfold no_whitespace, no_space. intros H.
  eapply Forall_impl; [exact H|].
  intros c Hc ->. discriminate Hc.
Qed.

(** X6.  A non-empty string without any whitespace is one sentence: for
    every engine name [sent_tokenize] returns the string itself as the only
    segment. *)
Theorem sent_tokenize_single_sentence
    (s : pystr) (engine : pystr)
    (Hne : str_truthy s = true) (Hws : no_whitespace s) :
  sent_tokenize (PyStr s) engine = MkM [] (Return [s]).
Proof.
  unfold sent_tokenize. rewrite guard_text, Hne. cbn [negb str_of_val].
  destruct (str_eqb engine (str "whitespace")).
  - unfold re_split_spaces, re_U.
    rewrite re_split_spaces_go_no_space by (apply no_whitespace_no_space, Hws).
    reflexivity.
  - unfold split_whitespace.
    rewrite split_whitespace_go_no_whitespace; [reflexivity | exact Hws |].
    destruct s; [discriminate Hne | discriminate].
Qed.

Lemma sent_tokenize_single_sentence_witness :
  str_truthy Toy.rotfai = true
  /\ no_whitespace Toy.rotfai
  /\ sent_tokenize (PyStr Toy.rotfai) (str "whitespace")
     = MkM [] (Return [Toy.rotfai]).
Proof.
  assert (Hws : no_whitespace Toy.rotfai) by (repeat constructor).
  split; [reflexivity|]. split; [exact Hws|].
  apply (sent_tokenize_single_sentence Toy.rotfai (str "whitespace"));
    [reflexivity | exact Hws].
Defined.

(** *** The whitespace step of [word_tokenize] *)

Lemma strip_space_idempotent (t : pystr) :
  strip_space (strip_space t) = strip_space t.
Proof.
  destruct (strip_space_trimmed t) as (_ & Hh & Hl).
  apply strip_space_id; assumption.
Qed.

Lemma drop_whitespace_trimmed (segments : list pystr) :
  Forall trimmed_token (drop_whitespace segments).
Proof.
  induction segments as [|t ts IH]; cbn [drop_whitespace]; [constructor|].
  destruct (str_truthy (strip_space t)) eqn:Ht; [|exact IH].
  constructor; [|exact IH].
  destruct (strip_space_trimmed t) as (_ & Hh & Hl).
  split; [|split; assumption].
  intros Hnil. rewrite Hnil in Ht. discriminate Ht.
Qed.

Lemma drop_whitespace_idempotent (segments : list pystr) :
  drop_whitespace (drop_whitespace segments) = drop_whitespace segments.
Proof.
  induction segments as [|t ts IH]; cbn [drop_whitespace]; [reflexivity|].
  destruct (str_truthy (strip_space t)) eqn:Ht; [|exact IH].
  cbn [drop_whitespace]. rewrite strip_space_idempotent, Ht, IH. reflexivity.
Qed.

Lemma remove_spaces_only_spaces (s : pystr) :
  only_spaces s -> remove_spaces s = [].
Proof.
  induction 1 as [|c s Hc _ IH]; [reflexivity|].
  rewrite remove_spaces_cons, Hc, N.eqb_refl. exact IH.
Qed.

Lemma remove_spaces_strip_space (t : pystr) :
  remove_spaces (strip_space t) = remove_spaces t.
Proof.
  destruct (strip_space_trimmed t) as ((l & r & Hl & Hr & Ht) & _).
  rewrite Ht at 2. rewrite !remove_spaces_app.
  rewrite (remove_spaces_only_spaces l Hl), (remove_spaces_only_spaces r Hr).
  rewrite app_nil_r. reflexivity.
Qed.

Lemma drop_whitespace_content (segments : list pystr) :
  remove_spaces (join (drop_whitespace segments))
  = remove_spaces (join segments)
  /\ (length (drop_whitespace segments) <= length segments)%nat.
Proof.
  unfold join.
  induction segments as [|t ts [IH1 IH2]]; cbn [drop_whitespace];
    [split; [reflexivity | lia]|].
  cbn [concat]. rewrite (remove_spaces_app t), <- (remove_spaces_strip_space t).
  destruct (str_truthy (strip_space t)) eqn:Ht.
  - cbn [concat length].
    rewrite (remove_spaces_app (strip_space t)), IH1.
    split; [reflexivity|lia].
  - destruct (strip_space t); [|discriminate Ht].
    cbn [remove_spaces List.filter app length]. split; [exact IH1 | lia].
Qed.

(** What [word_tokenize] returns with whitespace dropped is the whitespace
    step applied to what some call returned. *)
Lemma word_tokenize_dropped E C text d engine out :
  outcome (word_tokenize E C text d engine false) = Return out ->
  exists segments, out = drop_whitespace segments.
Proof.
  destruct (no_text text) eqn:Hno.
  - rewrite (word_tokenize_no_text E C text) by exact Hno.
    intros [= <-]. exists []. reflexivity.
  - destruct text as [| b | z | [|c s] | l | t | l]; try discriminate Hno.
    rewrite word_tokenize_str.
    destruct (word_segments E C (c :: s) d engine) as [segs|e];
      cbn [outcome result_map]; [|discriminate].
    intros [= <-]. exists segs. reflexivity.
Qed.

(** X7.  With [keep_whitespace=False] no returned token is empty and none
    begins or ends with an ASCII space (so none is a lone space), for every
    engine, text and dictionary. *)
Theorem word_tokenize_dropped_tokens_are_trimmed
    (E : Engines) (C : Corpus) (text : pyval) (custom_dict : option Trie)
    (engine : pystr) (out : list pystr)
    (Hout : outcome (word_tokenize E C text custom_dict engine false)
            = Return out) :
  Forall trimmed_token out.
Proof.
  destruct (word_tokenize_dropped E C text custom_dict engine out Hout)
    as (segments & ->).
  apply drop_whitespace_trimmed.
Qed.

Lemma word_tokenize_dropped_tokens_witness :
  outcome (word_tokenize Toy.engines Toy.corpus
             (PyStr (str " " ++ Toy.rotfai ++ str "  " ++ Toy.rot)) None
             (str "newmm") false)
  = Return [Toy.rotfai; Toy.rot]
  /\ Forall trimmed_token [Toy.rotfai; Toy.rot].
Proof.
  split; [reflexivity|].
  apply (word_tokenize_dropped_tokens_are_trimmed Toy.engines Toy.corpus
           (PyStr (str " " ++ Toy.rotfai ++ str "  " ++ Toy.rot)) None
           (str "newmm")).
  reflexivity.
Defined.

(** X8.  The whitespace step is idempotent: applied to the tokens that
    [word_tokenize] returned with [keep_whitespace=False] it changes
    nothing. *)
Theorem word_tokenize_dropped_is_stable
    (E : Engines) (C : Corpus) (text : pyval) (custom_dict : option Trie)
    (engine : pystr) (out : list pystr)
    (Hout : outcome (word_tokenize E C text custom_dict engine false)
            = Return out) :
  drop_whitespace out = out.
Proof.
  destruct (word_tokenize_dropped E C text custom_dict engine out Hout)
    as (segments & ->).
  apply drop_whitespace_idempotent.
Qed.

Lemma word_tokenize_dropped_is_stable_witness :
  outcome (word_tokenize Toy.engines Toy.corpus
             (PyStr (str " " ++ Toy.rotfai ++ str "  " ++ Toy.rot)) None
             (str "newmm") false)
  = Return [Toy.rotfai; Toy.rot]
  /\ drop_whitespace [Toy.rotfai; Toy.rot] = [Toy.rotfai; Toy.rot].
Proof.
  split; [reflexivity|].
  apply (word_tokenize_dropped_is_stable Toy.engines Toy.corpus
           (PyStr (str " " ++ Toy.rotfai ++ str "  " ++ Toy.rot)) None
           (str "newmm")).
  reflexivity.
Defined.

(** X9.  Dropping whitespace loses ASCII spaces and nothing else: the
    tokens returned with [keep_whitespace=False] are no more than those
    returned with [keep_whitespace=True], and put together they hold the
    same characters other than spaces, in the same order; an exception of
    the engine is the same in both modes. *)
Theorem word_tokenize_dropped_loses_only_spaces
    (E : Engines) (C : Corpus) (text : pyval) (custom_dict : option Trie)
    (engine : pystr) :
  match outcome (word_tokenize E C text custom_dict engine true) with
  | Return segments =>
      exists out,
        outcome (word_tokenize E C text custom_dict engine false) = Return out
        /\ remove_spaces (join out) = remove_spaces (join segments)
        /\ (length out <= length segments)%nat
  | Raise e =>
      outcome (word_tokenize E C text custom_dict engine false) = Raise e
  end.
Proof.
  destruct (no_text text) eqn:Hno.
  { rewrite !(word_tokenize_no_text E C text) by exact Hno.
    exists []. repeat split. simpl. lia. }
  destruct text as [| b | z | [|c s] | l | t | l]; try discriminate Hno.
  rewrite !word_tokenize_str.
  destruct (word_segments E C (c :: s) custom_dict engine) as [segs|e];
    cbn [outcome result_map]; [|reflexivity].
  exists (drop_whitespace segs). split; [reflexivity|].
  apply drop_whitespace_content.
Qed.

(** *** Engine dispatch *)

Lemma truthy_empty_trie (t : Trie) :
  Trie_len t = 0%nat -> truthy (PyTrie t) = false.
Proof. intros H. cbn [truthy]. rewrite H. reflexivity. Qed.

(** X10.  With [engine="deepcut"] an empty trie counts as no dictionary:
    the engine is called without a vocabulary, exactly as when
    [custom_dict] is left out. *)
Theorem deepcut_empty_trie_is_no_dictionary
    (E : Engines) (C : Corpus) (text : pyval) (t : Trie)
    (keep_whitespace : bool) (Hempty : Trie_len t = 0%nat) :
  word_tokenize E C text (Some t) (str "deepcut") keep_whitespace
  = word_tokenize E C text None (str "deepcut") keep_whitespace.
Proof.
  unfold word_tokenize.
  destruct (negb (truthy text) || negb (isinstance_str text)); [reflexivity|].
  change (word_segments E C (str_of_val text) (Some t) (str "deepcut"))
    with (if truthy (PyTrie t)
          then deepcut_segment E (str_of_val text) (Some (Trie_keys t))
          else deepcut_segment E (str_of_val text) None).
  rewrite (truthy_empty_trie t Hempty). reflexivity.
Qed.

Lemma deepcut_empty_trie_witness :
  Trie_len (Trie_new []) = 0%nat
  /\ word_tokenize Toy.engines Toy.corpus (PyStr Toy.rotfai)
       (Some (Trie_new [])) (str "deepcut") true
     = word_tokenize Toy.engines Toy.corpus (PyStr Toy.rotfai) None
         (str "deepcut") true.
Proof.
  split; [reflexivity|].
  apply (deepcut_empty_trie_is_no_dictionary Toy.engines Toy.corpus).
  reflexivity.
Defined.

(** X11.  [onecut] is another name of [newmm] and [mm] another name of
    [multi_cut]: for every text, dictionary and [keep_whitespace] the two
    names of a pair give the same result. *)
Theorem engine_name_aliases
    (E : Engines) (C : Corpus) (text : pyval) (custom_dict : option Trie)
    (keep_whitespace : bool) :
  word_tokenize E C text custom_dict (str "onecut") keep_whitespace
  = word_tokenize E C text custom_dict (str "newmm") keep_whitespace
  /\ word_tokenize E C text custom_dict (str "mm") keep_whitespace
     = word_tokenize E C text custom_dict (str "multi_cut") keep_whitespace.
Proof.
  split; unfold word_tokenize;
    destruct (negb (truthy text) || negb (isinstance_str text)); reflexivity.
Qed.

(** X12.  With [engine="icu"] the custom dictionary plays no part: any two
    dictionaries, or none, give the same result. *)
Theorem icu_ignores_custom_dict
    (E : Engines) (C : Corpus) (text : pyval)
    (custom_dict other_dict : option Trie) (keep_whitespace : bool) :
  word_tokenize E C text custom_dict (str "icu") keep_whitespace
  = word_tokenize E C text other_dict (str "icu") keep_whitespace.
Proof.
  unfold word_tokenize.
  destruct (negb (truthy text) || negb (isinstance_str text)); reflexivity.
Qed.

(** *** The dictionary builder and its users *)

Lemma no_linebreak_rev (p : pystr) : no_linebreak p -> no_linebreak (rev p).
Proof.
  unfold no_linebreak. rewrite !Forall_forall. intros H c Hc.
  apply H. apply list_elem_of_In, in_rev, list_elem_of_In. exact Hc.
Qed.

(** No line of [splitlines] holds a line-break character. *)
Lemma splitlines_go_no_linebreak (n : nat) :
  forall s cur,
    (length s <= n)%nat -> no_linebreak cur ->
    Forall no_linebreak (splitlines_go cur s).
Proof.
  induction n as [|n IH]; intros s cur Hlen Hcur.
  - destruct s; [|simpl in Hlen; lia]. cbn [splitlines_go].
    destruct cur; constructor; [apply no_linebreak_rev, Hcur | constructor].
  - destruct s as [|c s]; cbn [splitlines_go].
    + destruct cur; constructor; [apply no_linebreak_rev, Hcur | constructor].
    + cbn [length] in Hlen.
      destruct (py_islinebreak c) eqn:Hc.
      * destruct s as [|c' s'].
        { constructor; [apply no_linebreak_rev, Hcur | constructor]. }
        cbn [length] in Hlen.
        destruct (N.eqb c 13 && N.eqb c' 10);
          (constructor; [apply no_linebreak_rev, Hcur|]);
          apply IH; try constructor; cbn [length]; lia.
      * apply IH; [lia | constructor; assumption].
Qed.

(** X13.  A string source is always read as a path.  When the file cannot
    be read, [dict_trie] raises the error of the read, unchanged, and
    builds nothing; otherwise the keys of the trie are exactly the lines
    of the file, and no key holds a line-break character. *)
Theorem dict_trie_from_path_reads_lines
    (read_file : pystr -> result pystr) (path : pystr) :
  match read_file path with
  | Raise e =>
      dict_trie read_file (PyStr path) = MkM [EvDictTrie (PyStr path)] (Raise e)
  | Return content =>
      exists t : Trie,
        dict_trie read_file (PyStr path)
        = MkM [EvDictTrie (PyStr path)] (Return t)
        /\ (forall w, w ∈ t <-> In w (splitlines content))
        /\ (forall w, w ∈ t -> no_linebreak w)
  end.
Proof.
  unfold dict_trie. cbn [isinstance_Trie isinstance_str str_of_val].
  destruct (read_file path) as [content|e]; [|reflexivity].
  exists (Trie_new (splitlines content)). split; [reflexivity|].
  assert (Hmem : forall w,
             w ∈ Trie_new (splitlines content) <-> In w (splitlines content)).
  { intros w. unfold Trie_new. rewrite elem_of_list_to_set.
    apply list_elem_of_In. }
  split; [exact Hmem|].
  intros w Hw. apply Hmem in Hw.
  pose proof (splitlines_go_no_linebreak (length content) content []
                (le_n _) (Forall_nil_2 _)) as Hall.
  rewrite Forall_forall in Hall. apply Hall, list_elem_of_In. exact Hw.
Qed.

(** X14.  A [Tokenizer] built from a value that is neither a trie, nor a
    string, nor an iterable ([None], a boolean, a number): when the value is
    falsy the default trie is bound and the builder is not called; when it
    is truthy the construction fails with the [TypeError] of the builder. *)
Theorem Tokenizer_init_unsupported_source
    (C : Corpus) (read_file : pystr -> result pystr) (custom_dict : pyval)
    (engine : pystr) (Hsrc : unsupported_source custom_dict = true) :
  Tokenizer_init C read_file custom_dict engine
  = if truthy custom_dict
    then MkM [EvDictTrie custom_dict] (Raise (TypeError dict_source_error))
    else MkM [] (Return (MkTokenizer (DEFAULT_DICT_TRIE C) engine)).
Proof.
  unfold Tokenizer_init. destruct (truthy custom_dict); [|reflexivity].
  rewrite (dict_trie_unsupported read_file custom_dict Hsrc). reflexivity.
Qed.

Lemma Tokenizer_init_unsupported_witness :
  unsupported_source (PyInt 5) = true
  /\ Tokenizer_init Toy.corpus Toy.read_file (PyInt 5) (str "newmm")
     = if truthy (PyInt 5)
       then MkM [EvDictTrie (PyInt 5)] (Raise (TypeError dict_source_error))
       else MkM [] (Return (MkTokenizer (DEFAULT_DICT_TRIE Toy.corpus)
                              (str "newmm"))).
Proof.
  split; [reflexivity|].
  apply (Tokenizer_init_unsupported_source Toy.corpus Toy.read_file (PyInt 5)).
  reflexivity.
Defined.



(** *** Syllable tokenization *)

Lemma trace_bind_nil {A B} (m : M A) (f : A -> M B) :
  trace m = [] -> (forall a, trace (f a) = []) -> trace (m ≫= f) = [].
Proof.
  intros Hm Hf. destruct m as [t [a|e]]; simpl in Hm; subst t;
    unfold mbind, M_mbind, M_bind; cbn [outcome trace app]; [apply Hf|reflexivity].
Qed.

Lemma map_M_trace_nil {A B} (f : A -> M B) (xs : list A) :
  (forall x, trace (f x) = []) -> trace (map_M f xs) = [].
Proof.
  intros Hf. induction xs as [|x xs IH]; cbn [map_M]; [reflexivity|].
  apply trace_bind_nil; [apply Hf|]. intros y.
  apply trace_bind_nil; [exact IH|]. reflexivity.
Qed.

Lemma for_each_ext {A B} (body body' : B -> A -> M B) (xs : list A) :
  (forall acc x, body acc x = body' acc x) ->
  forall acc, for_each body xs acc = for_each body' xs acc.
Proof.
  intros H. induction xs as [|x xs IH]; intros acc; cbn [for_each];
    [reflexivity|].
  rewrite H. apply M_bind_ext. exact IH.
Qed.

(** With [engine="newmm"] only the [newmm] engine matters. *)
Lemma word_tokenize_newmm_ext E E' C C' text d kw :
  (forall t dict, newmm_segment E t dict = newmm_segment E' t dict) ->
  word_tokenize E C text d (str "newmm") kw
  = word_tokenize E' C' text d (str "newmm") kw.
Proof.
  intros Hn. unfold word_tokenize.
  destruct (negb (truthy text) || negb (isinstance_str text)); [reflexivity|].
  change (word_segments E C (str_of_val text) d (str "newmm"))
    with (newmm_segment E (str_of_val text) d).
  change (word_segments E' C' (str_of_val text) d (str "newmm"))
    with (newmm_segment E' (str_of_val text) d).
  rewrite Hn. reflexivity.
Qed.

(** X16.  On a non-empty string, when the [newmm] engine fails on the whole
    text [syllable_tokenize] raises that error and builds no trie; when it
    succeeds the syllable trie is built exactly once, from the syllable
    vocabulary, whatever happens to the words afterwards, and nothing else
    is observable. *)
Theorem syllable_tokenize_builds_one_trie
    (E : Engines) (C : Corpus) (read_file : pystr -> result pystr)
    (s : pystr) (Hne : str_truthy s = true) :
  match newmm_segment E s None with
  | Raise e => syllable_tokenize E C read_file (PyStr s) = MkM [] (Raise e)
  | Return words =>
      trace (syllable_tokenize E C read_file (PyStr s))
      = [EvDictTrie (PyStrs (thai_syllables C))]
  end.
Proof.
  unfold syllable_tokenize. rewrite guard_text. cbn [truthy]. rewrite Hne.
  cbn [negb]. destruct s as [|c s]; [discriminate Hne|].
  unfold default_engine, default_keep_whitespace.
  rewrite word_tokenize_str.
  change (word_segments E C (c :: s) None (str "newmm"))
    with (newmm_segment E (c :: s) None).
  destruct (newmm_segment E (c :: s) None) as [words|e];
    cbn [result_map]; [|reflexivity].
  rewrite M_bind_returned, dict_trie_iterable.
  unfold mbind at 1, M_mbind, M_bind. cbn [outcome trace app].
  rewrite for_each_extend. f_equal.
  apply trace_bind_nil; [|reflexivity].
  apply map_M_trace_nil. intros w. apply word_tokenize_trace.
Qed.

Lemma syllable_tokenize_builds_one_trie_witness :
  str_truthy Toy.rotfai = true
  /\ trace (syllable_tokenize Toy.engines Toy.corpus Toy.read_file
              (PyStr Toy.rotfai))
     = [EvDictTrie (PyStrs (thai_syllables Toy.corpus))].
Proof.
  split; [reflexivity|].
  exact (syllable_tokenize_builds_one_trie Toy.engines Toy.corpus
           Toy.read_file Toy.rotfai eq_refl).
Defined.

(** X17.  [syllable_tokenize] uses the [newmm] engine and the syllable
    vocabulary and nothing else: two worlds that agree on these two give
    the same result, whatever their other engines, their word and frozen
    vocabularies and their files. *)
Theorem syllable_tokenize_uses_newmm_and_syllables_only
    (E E' : Engines) (C C' : Corpus)
    (read_file read_file' : pystr -> result pystr) (text : pyval)
    (Hnewmm : forall t dict, newmm_segment E t dict = newmm_segment E' t dict)
    (Hsyl : thai_syllables C = thai_syllables C') :
  syllable_tokenize E C read_file text
  = syllable_tokenize E' C' read_file' text.
Proof.
  unfold syllable_tokenize.
  destruct (negb (truthy text) || negb (isinstance_str text)); [reflexivity|].
  destruct (truthy text); [|reflexivity].
  rewrite (word_tokenize_newmm_ext E E' C C' text None _ Hnewmm).
  apply M_bind_ext; intros words.
  rewrite !dict_trie_iterable, Hsyl.
  apply M_bind_ext; intros trie.
  apply for_each_ext. intros acc w.
  rewrite (word_tokenize_newmm_ext E E' C C' (PyStr w) (Some trie) _ Hnewmm).
  reflexivity.
Qed.

Lemma syllable_tokenize_uses_newmm_witness :
  (forall t dict,
      newmm_segment Toy.engines t dict = newmm_segment toy_newmm_only t dict)
  /\ thai_syllables Toy.corpus = thai_syllables toy_syllables_only
  /\ syllable_tokenize Toy.engines Toy.corpus Toy.read_file
       (PyStr (Toy.rotfai ++ [SPACE] ++ Toy.rot))
     = syllable_tokenize toy_newmm_only toy_syllables_only no_files
         (PyStr (Toy.rotfai ++ [SPACE] ++ Toy.rot)).
Proof.
  split; [reflexivity|]. split; [reflexivity|].
  apply (syllable_tokenize_uses_newmm_and_syllables_only
           Toy.engines toy_newmm_only Toy.corpus toy_syllables_only
           Toy.read_file no_files);
    reflexivity.
Defined.

(** *** Remaining dispatch and file access *)

(** X18.  [subword_tokenize] knows one name, ["etcc"]: with any other
    engine name it does exactly what it does with [engine="tcc"], tokens
    or exception. *)
Theorem subword_tokenize_falls_back_to_tcc
    (E : Engines) (text : pyval) (engine : pystr)
    (Hname : str_eqb engine (str "etcc") = false) :
  subword_tokenize E text engine = subword_tokenize E text (str "tcc").
Proof.
  unfold subword_tokenize.
  destruct (negb (truthy text) || negb (isinstance_str text)); [reflexivity|].
  rewrite Hname. reflexivity.
Qed.

Lemma subword_tokenize_falls_back_witness :
  str_eqb (str "nonexistent_name") (str "etcc") = false
  /\ subword_tokenize Toy.engines (PyStr Toy.rotfai) (str "nonexistent_name")
     = subword_tokenize Toy.engines (PyStr Toy.rotfai) (str "tcc").
Proof.
  split; [reflexivity|].
  apply (subword_tokenize_falls_back_to_tcc Toy.engines).
  reflexivity.
Defined.


